(** * Shallow embedding of evennia/scripts/tickerhandler.py

    The three layers of the ticker subsystem: [Ticker] (one looping task per
    interval), [TickerPool] (interval -> Ticker) and [TickerHandler] (the
    registry table [ticker_storage], its persisted copy in ServerConfig and the
    pool).  Python dicts are stdpp [gmap]s; Python exceptions that escape a
    method are returned next to the state reached when they were raised, since
    Python does not roll back mutations done before a raise. *)

From Stdlib Require Import Ascii.
From stdpp Require Import base gmap strings list fin_maps.

(** ** Python values *)

(** A database entity (a typeclassed object) is identified by its dbref. *)
Definition Entity := nat.

(** The values that flow through args, kwargs and the reserved kwargs
    [_callback], [_obj] and [_start_delay].  A stand-alone function object is
    identified by its python-path. *)
Inductive PyVal :=
| VNone
| VInt (z : Z)
| VStr (s : string)
| VObj (e : Entity)
| VFun (path : string).

(** Python truthiness ([bool(v)]); typeclassed objects and functions are truthy. *)
Definition py_truthy (v : PyVal) : bool :=
  match v with
  | VNone => false
  | VInt z => negb (Z.eqb z 0)
  | VStr s => negb (String.eqb s "")
  | VObj _ => true
  | VFun _ => true
  end.

(** [callable(v)] *)
Definition py_callable (v : PyVal) : bool :=
  match v with VFun _ => true | _ => false end.

(** Exceptions that can be raised in this module.  [ObjectDoesNotExist] and
    [GenericError] (any other subclass of [Exception]) are caught by
    [except Exception]; [BaseExc] is a [BaseException] that is not an
    [Exception] (SystemExit, KeyboardInterrupt), which is not. *)
Inductive PyExc :=
| TypeError
| ValueError
| ObjectDoesNotExist
| GenericError
| KeyError
| BaseExc.

Definition is_Exception (e : PyExc) : bool :=
  match e with BaseExc => false | _ => true end.

(** Log lines written through evennia.utils.logger. *)
Inductive LogEntry :=
| LogTrace (msg : string)
| LogErr (msg : string).

Abbreviation kwargs := (gmap string PyVal).
Abbreviation args := (list PyVal).

(** [d.get(key, default)] *)
Definition kw_get (key : string) (default : PyVal) (kw : kwargs) : PyVal :=
  match kw !! key with Some v => v | None => default end.

(** [d.pop(key, default)]: the value and the dict without the key. *)
Definition kw_pop (key : string) (default : PyVal) (kw : kwargs) : PyVal * kwargs :=
  (kw_get key default kw, delete key kw).

(** ** Store keys

    [_store_key] returns the 6-tuple
    [(outobj, methodname, outpath, interval, idstring, persistent)]. *)
Definition StoreKey := (option Entity * option string * option string * Z * string * bool)%type.

Definition sk_obj (k : StoreKey) : option Entity := let '(o, _, _, _, _, _) := k in o.
Definition sk_methodname (k : StoreKey) : option string := let '(_, m, _, _, _, _) := k in m.
Definition sk_path (k : StoreKey) : option string := let '(_, _, p, _, _, _) := k in p.
Definition sk_interval (k : StoreKey) : Z := let '(_, _, _, i, _, _) := k in i.
Definition sk_idstring (k : StoreKey) : string := let '(_, _, _, _, s, _) := k in s.
Definition sk_persistent (k : StoreKey) : bool := let '(_, _, _, _, _, b) := k in b.

(** [store_key[1]] as a Python value: the method name (a str or None). *)
Definition sk_index1 (k : StoreKey) : PyVal :=
  match sk_methodname k with Some m => VStr m | None => VNone end.

(** ** Ticker *)

(** The payload of a subscription: [(args, kwargs)]. *)
Definition Payload := (args * kwargs)%type.

(** A Ticker: its interval, its [subscriptions] dict and the state of its
    ExtendedLoopingCall task (running or not, and the start delay it was
    last started with). *)
Record Ticker := mkTicker {
  t_interval : Z;
  subscriptions : gmap StoreKey Payload;
  task_running : bool;
  task_start_delay : PyVal
}.

(** [Ticker(interval)] *)
Definition new_ticker (interval : Z) : Ticker := mkTicker interval ∅ false VNone.

Definition set_subscriptions (t : Ticker) (s : gmap StoreKey Payload) : Ticker :=
  mkTicker (t_interval t) s (task_running t) (task_start_delay t).

(** [self.task.start(self.interval, now=False, start_delay=...)]:
    [ExtendedLoopingCall.start] raises ValueError for a negative interval,
    before it marks the task running. *)
Definition task_start (t : Ticker) (start_delay : PyVal) : Ticker * option PyExc :=
  if Z.ltb (t_interval t) 0 then (t, Some ValueError)
  else (mkTicker (t_interval t) (subscriptions t) true start_delay, None).

(** [Ticker.validate(start_delay)]: stop the task when there are no
    subscriptions, start it when there are some and it is not running. *)
Definition validate (t : Ticker) (start_delay : PyVal) : Ticker * option PyExc :=
  let subs := subscriptions t in
  if task_running t then
    (if decide (subs = ∅) then (mkTicker (t_interval t) subs false (task_start_delay t), None)
     else (t, None))
  else if decide (subs = ∅) then (t, None)
  else task_start t start_delay.

(** [Ticker.add(store_key, *args, **kwargs)]: the subscription is stored
    before [validate] runs. *)
Definition ticker_add (t : Ticker) (k : StoreKey) (a : args) (kw : kwargs) : Ticker * option PyExc :=
  let '(start_delay, kw') := kw_pop "_start_delay" VNone kw in
  validate (set_subscriptions t (<[k := (a, kw')]> (subscriptions t))) start_delay.

(** [Ticker.remove(store_key)] *)
Definition ticker_remove (t : Ticker) (k : StoreKey) : Ticker * option PyExc :=
  validate (set_subscriptions t (delete k (subscriptions t))) VNone.

(** [Ticker.stop()] *)
Definition ticker_stop (t : Ticker) : Ticker * option PyExc :=
  validate (set_subscriptions t ∅) VNone.

(** Python truthiness of a [Ticker] instance: the class defines neither
    [__len__] nor [__nonzero__], so every instance is truthy. *)
Definition ticker_truthy (t : Ticker) : bool := true.

(** ** TickerPool: [self.tickers], a dict interval -> Ticker *)

Abbreviation Pool := (gmap Z Ticker).

(** [TickerPool.add(store_key, *args, **kwargs)].  For a falsy interval,
    [_ERROR_ADD_TICKER.format(store_key=store_key)] raises KeyError: the
    template's field is [{storekey}], so [log_err] is never reached.  The
    ticker is created and bound in [self.tickers] before [Ticker.add]
    mutates it, so an exception of [Ticker.add] leaves it there. *)
Definition pool_add (tickers : Pool) (k : StoreKey) (a : args) (kw : kwargs)
  : Pool * option PyExc :=
  let interval := sk_interval k in
  if negb (py_truthy (VInt interval)) then (tickers, Some KeyError)
  else
    let t := match tickers !! interval with
             | Some t => t
             | None => new_ticker interval
             end in
    let '(t', r) := ticker_add t k a kw in
    (<[interval := t']> tickers, r).

(** [TickerPool.remove(store_key)] *)
Definition pool_remove (tickers : Pool) (k : StoreKey) : Pool * option PyExc :=
  let interval := sk_interval k in
  match tickers !! interval with
  | Some t =>
      let '(t1, r) := ticker_remove t k in
      let tickers' := <[interval := t1]> tickers in
      match r with
      | Some e => (tickers', Some e)
      | None =>
          match tickers' !! interval with
          | Some t' => if negb (ticker_truthy t') then (delete interval tickers', None) else (tickers', None)
          | None => (tickers', None)
          end
      end
  | None => (tickers, None)
  end.

(** [TickerPool.stop(interval=None)].  [Ticker.stop] never raises: with no
    subscriptions [validate] never starts the task ([ticker_stop_ok]), so
    only the ticker it leaves is kept. *)
Definition pool_stop (tickers : Pool) (interval : option Z) : Pool :=
  match interval with
  | Some i =>
      if py_truthy (VInt i) then
        match tickers !! i with
        | Some t => <[i := (ticker_stop t).1]> tickers
        | None => (fun t => (ticker_stop t).1) <$> tickers
        end
      else (fun t => (ticker_stop t).1) <$> tickers
  | None => (fun t => (ticker_stop t).1) <$> tickers
  end.

(** ** Ticker._callback: one firing of a ticker *)

(** What a subscriber's callable does when it is invoked: return normally
    ([None]) or raise. *)
Definition Outcome := StoreKey -> option PyExc.

(** Accumulated state of the firing loop: the subscriptions dict (whose
    payloads are mutated in place), [to_remove], the keys whose callable was
    invoked, and the log. *)
Record FireState := mkFire {
  f_subs : gmap StoreKey Payload;
  f_to_remove : list StoreKey;
  f_invoked : list StoreKey;
  f_log : list LogEntry
}.

(** The body of the [try] block for one subscription, where [res] is what
    the subscriber's callable does when invoked: [TMark] appends the key to
    [to_remove] and continues, [TInvoked r] invokes the callable with result
    [r], [TRaise e] is an exception raised before any invocation. *)
Inductive TryRes :=
| TMark
| TInvoked (r : option PyExc)
| TRaise (e : PyExc).

Definition try_body (alive : Entity -> bool) (res : option PyExc) (callback obj : PyVal) : TryRes :=
  if py_callable callback then TInvoked res          (* callback( *args, **kwargs) *)
  else if negb (py_truthy obj) then TMark              (* not obj *)
  else match obj with
       | VObj e =>
           if negb (alive e) then TMark                (* not obj.pk *)
           else match callback with
                | VStr _ => TInvoked res               (* _GA(obj, callback)( *args, **kwargs) *)
                | _ => TRaise TypeError                (* attribute name is not a string *)
                end
       | _ => TRaise GenericError                      (* obj has no attribute pk *)
       end.

(** One iteration of the [for] loop, over [(store_key, (args, kwargs))]. *)
Definition fire_one (alive : Entity -> bool) (outcome : Outcome)
    (st : FireState) (k : StoreKey) (p : Payload) : FireState * option PyExc :=
  let '(a, kw) := p in
  let '(callback, kw1) := kw_pop "_callback" (VStr "at_tick") kw in
  let '(obj, kw2) := kw_pop "_obj" VNone kw1 in
  (* the [finally] clause re-stores both popped values in the same dict *)
  let subs' := <[k := (a, <["_obj" := obj]> (<["_callback" := callback]> kw2))]> (f_subs st) in
  let tb := try_body alive (outcome k) callback obj in
  let invoked := match tb with TInvoked _ => f_invoked st ++ [k] | _ => f_invoked st end in
  let raised := match tb with
                | TMark => None
                | TInvoked r => r
                | TRaise e => Some e
                end in
  let mark := match tb with TMark => [k] | _ => [] end in
  match raised with
  | None => (mkFire subs' (f_to_remove st ++ mark) invoked (f_log st), None)
  | Some ObjectDoesNotExist =>                         (* except ObjectDoesNotExist *)
      (mkFire subs' (f_to_remove st ++ [k]) invoked (f_log st ++ [LogTrace "Removing ticker."]), None)
  | Some e =>
      if is_Exception e                                (* except Exception *)
      then (mkFire subs' (f_to_remove st) invoked (f_log st ++ [LogTrace ""]), None)
      else (mkFire subs' (f_to_remove st) invoked (f_log st), Some e)
  end.

(** The [for] loop over [self.subscriptions.iteritems()]; the loop only
    mutates the payload dicts, never the set of keys, so iterating over the
    items taken at the start visits the same keys in the same order. *)
Fixpoint fire_loop (alive : Entity -> bool) (outcome : Outcome)
    (items : list (StoreKey * Payload)) (st : FireState) : FireState * option PyExc :=
  match items with
  | [] => (st, None)
  | (k, p) :: rest =>
      match fire_one alive outcome st k p with
      | (st', None) => fire_loop alive outcome rest st'
      | (st', Some e) => (st', Some e)
      end
  end.

(** The result of one firing: the ticker afterwards, the keys whose callable
    was invoked, the log lines, and an exception escaping [_callback]. *)
Record FireResult := mkFireResult {
  fr_ticker : Ticker;
  fr_invoked : list StoreKey;
  fr_log : list LogEntry;
  fr_exc : option PyExc
}.

(** [Ticker._callback()] *)
Definition ticker_callback (alive : Entity -> bool) (outcome : Outcome) (t : Ticker) : FireResult :=
  let '(st, r) := fire_loop alive outcome (map_to_list (subscriptions t)) (mkFire (subscriptions t) [] [] []) in
  let t1 := set_subscriptions t (f_subs st) in
  match r with
  | Some e => mkFireResult t1 (f_invoked st) (f_log st) (Some e)
  | None =>
      (* cleanup: for store_key in to_remove: self.remove(store_key).
         [_callback] runs only while the task is running, and [remove] on a
         running ticker never starts the task, so it raises nothing
         ([cleanup_running_ok]); only the ticker it leaves is kept. *)
      mkFireResult (fold_left (fun t k => (ticker_remove t k).1) (f_to_remove st) t1)
        (f_invoked st) (f_log st) None
  end.

(** ** TickerHandler *)

(** A value of [ticker_storage].  [add] and [restore] store [(args, kwargs)];
    [clear(interval)] rebuilds the dict as [dict((store_key, store_key) ...)],
    whose values are store keys. *)
Inductive Entry :=
| EPayload (a : args) (kw : kwargs)
| EKey (k : StoreKey).

(** A non-empty tuple is truthy ([if to_remove:] in [remove]). *)
Definition entry_truthy (e : Entry) : bool := true.

(** The handler: [ticker_storage], the ServerConfig record [save_name]
    (the dict serialized at the last write, [None] when deleted or never
    written), [ticker_pool.tickers], and the log. *)
Record HState := mkH {
  ticker_storage : gmap StoreKey Entry;
  stored : option (gmap StoreKey Entry);
  tickers : Pool;
  log : list LogEntry
}.

Definition set_storage (h : HState) (s : gmap StoreKey Entry) : HState :=
  mkH s (stored h) (tickers h) (log h).
Definition set_tickers (h : HState) (p : Pool) : HState :=
  mkH (ticker_storage h) (stored h) p (log h).
Definition add_log (h : HState) (l : list LogEntry) : HState :=
  mkH (ticker_storage h) (stored h) (tickers h) (log h ++ l).

(** The callback argument of [add]/[remove]: a bound method of a typeclassed
    entity, a module-level function, some other callable (a builtin, a class,
    a lambda is a function too), or a non-callable value. *)
Inductive Callback :=
| CbMethod (self : Entity) (name : string)
| CbFunction (module name : string)
| CbOtherCallable
| CbNotCallable.

(** [TickerHandler._get_callback(callback)]: [(outobj, outpath, outcallfunc)]. *)
Definition get_callback (cb : Callback) : (option Entity * option string * PyVal) + PyExc :=
  match cb with
  | CbMethod o n => inl (Some o, None, VStr n)
  | CbFunction m n => inl (None, Some (m +:+ "." +:+ n), VFun (m +:+ "." +:+ n))
  | CbOtherCallable => inl (None, None, VNone)
  | CbNotCallable => inr TypeError
  end.

(** [TickerHandler._store_key(obj, path, interval, callfunc, idstring, persistent)];
    entities are typeclassed, so they have [db_key]. *)
Definition store_key (obj : option Entity) (path : option string) (interval : Z)
    (callfunc : PyVal) (idstring : string) (persistent : bool) : StoreKey :=
  let outpath := match path with
                 | Some p => if String.eqb p "" then None else Some p
                 | None => None
                 end in
  let methodname := match callfunc with
                    | VStr s => if String.eqb s "" then None else Some s
                    | _ => None
                    end in
  (obj, methodname, outpath, interval, idstring, persistent).

Definition obj_val (o : option Entity) : PyVal :=
  match o with Some e => VObj e | None => VNone end.

(** [start_delays.get(key, None)] for a dict whose keys are the ints of the
    pool's intervals: a str or None key is never equal to an int. *)
Definition delays_get (start_delays : gmap Z PyVal) (key : PyVal) : PyVal :=
  match key with
  | VInt z => match start_delays !! z with Some v => v | None => VNone end
  | _ => VNone
  end.

(** The loop of [save] over [self.ticker_storage.items()]. *)
Fixpoint save_loop (start_delays : gmap Z PyVal) (items : list (StoreKey * Entry))
    (tab : gmap StoreKey Entry) : gmap StoreKey Entry * option PyExc :=
  match items with
  | [] => (tab, None)
  | (k, EPayload a kw) :: rest =>
      let interval := sk_index1 k in                   (* interval = store_key[1] *)
      save_loop start_delays rest
        (<[k := EPayload a (<["_start_delay" := delays_get start_delays interval]> kw)]> tab)
  | (k, EKey _) :: _ => (tab, Some ValueError)         (* (args, kwargs) = 6-tuple *)
  end.

(** [TickerHandler.save()]; [next_call_time t] is [t.task.next_call_time()]. *)
Definition save (next_call_time : Ticker -> PyVal) (h : HState) : HState * option PyExc :=
  if decide (ticker_storage h = ∅) then
    (mkH (ticker_storage h) None (tickers h) (log h), None)
  else
    let start_delays := next_call_time <$> tickers h in
    let '(tab, r) := save_loop start_delays (map_to_list (ticker_storage h)) (ticker_storage h) in
    match r with
    | Some e => (set_storage h tab, Some e)
    | None => (mkH tab (Some tab) (tickers h) (log h), None)
    end.

(** [TickerHandler.add(interval, callback, idstring, persistent, *args, **kwargs)]. *)
Definition handler_add (next_call_time : Ticker -> PyVal) (h : HState) (interval : Z)
    (cb : Callback) (idstring : string) (persistent : bool) (a : args) (kw : kwargs)
  : HState * option PyExc :=
  match get_callback cb with
  | inr e => (h, Some e)
  | inl (obj, path, callfunc) =>
      let k := store_key obj path interval callfunc idstring persistent in
      let '(h2, r) := save next_call_time (set_storage h (<[k := EPayload a kw]> (ticker_storage h))) in
      match r with
      | Some e => (h2, Some e)
      | None =>
          (* [kwargs] is the dict stored under [k]: [save] and the two
             assignments below mutate the table's entry *)
          let kw2 := match ticker_storage h2 !! k with Some (EPayload _ kw2) => kw2 | _ => kw end in
          let kw3 := <["_callback" := callfunc]> (<["_obj" := obj_val obj]> kw2) in
          let h3 := set_storage h2 (<[k := EPayload a kw3]> (ticker_storage h2)) in
          let '(p, r') := pool_add (tickers h3) k a kw3 in
          (set_tickers h3 p, r')
      end
  end.

(** [TickerHandler.remove(interval, callback, idstring)]: [persistent] takes
    the default of [_store_key]. *)
Definition handler_remove (next_call_time : Ticker -> PyVal) (h : HState) (interval : Z)
    (cb : Callback) (idstring : string) : HState * option PyExc :=
  match get_callback cb with
  | inr e => (h, Some e)
  | inl (obj, path, callfunc) =>
      let k := store_key obj path interval callfunc idstring true in
      match ticker_storage h !! k with
      | Some v =>
          if entry_truthy v then
            let h1 := set_storage h (delete k (ticker_storage h)) in
            let '(p, r) := pool_remove (tickers h1) k in
            match r with
            | Some e => (set_tickers h1 p, Some e)
            | None => save next_call_time (set_tickers h1 p)
            end
          else (set_storage h (delete k (ticker_storage h)), None)
      | None => (h, None)
      end
  end.

(** Python [==] between a method name (str or None) and an int. *)
Definition pyval_eqb (x y : PyVal) : bool :=
  match x, y with
  | VNone, VNone => true
  | VInt a, VInt b => Z.eqb a b
  | VStr a, VStr b => String.eqb a b
  | VObj a, VObj b => Nat.eqb a b
  | VFun a, VFun b => String.eqb a b
  | _, _ => false
  end.

(** [TickerHandler.clear(interval=None)] *)
Definition handler_clear (next_call_time : Ticker -> PyVal) (h : HState) (interval : option Z)
  : HState * option PyExc :=
  let h1 := set_tickers h (pool_stop (tickers h) interval) in
  let tab := match interval with
             | Some i =>
                 if py_truthy (VInt i) then
                   map_imap (fun k _ => if pyval_eqb (sk_index1 k) (VInt i) then None
                                        else Some (EKey k)) (ticker_storage h1)
                 else ∅
             | None => ∅
             end in
  save next_call_time (set_storage h1 tab).

(** [TickerHandler.all(interval=None)]: [None] stands for Python's [None]. *)
Definition handler_all (h : HState) (interval : option Z) : option (gmap Z (gmap StoreKey Payload)) :=
  match interval with
  | None => Some (subscriptions <$> tickers h)
  | Some i =>
      match tickers h !! i with
      | Some t => if ticker_truthy t then Some {[i := subscriptions t]} else None
      | None => None
      end
  end.

(** The number of subscriptions listed by [all()]. *)
Definition all_count (h : HState) : nat :=
  match handler_all h None with
  | Some m => map_fold (fun _ subs acc => size subs + acc) 0 m
  | None => 0
  end.

(** [path.rsplit(".", 1)] unpacked into [modname, varname]: [None] when the
    path has no dot (the unpacking raises ValueError). *)
Fixpoint split_first_dot (l : list Ascii.ascii) : option (list Ascii.ascii * list Ascii.ascii) :=
  match l with
  | [] => None
  | c :: l' =>
      if Ascii.eqb c "."%char then Some ([], l')
      else match split_first_dot l' with
           | Some (x, y) => Some (c :: x, y)
           | None => None
           end
  end.

Definition rsplit_dot (path : string) : option (string * string) :=
  match split_first_dot (rev (String.list_ascii_of_string path)) with
  | Some (var_rev, mod_rev) =>
      Some (String.string_of_list_ascii (rev mod_rev), String.string_of_list_ascii (rev var_rev))
  | None => None
  end.

(** The fate of one stored entry in [restore]. *)
Inductive RestoreRes :=
| RSkip                          (* continue: non-persistent on a cold boot *)
| RFail                          (* except Exception: malformed ticker *)
| RRaise (e : PyExc)             (* raised outside the try: ends restore *)
| ROk (a : args) (kw : kwargs).  (* re-initialized *)

(** The [elif path:] branch of [restore]. *)
Definition restore_path (variable_from_module : string -> string -> option PyVal)
    (k : StoreKey) (a : args) (kw : kwargs) : RestoreRes :=
  match sk_path k with
  | Some path =>
      if negb (py_truthy (VStr path)) then ROk a kw else
      match rsplit_dot path with
      | None => RFail
      | Some (modname, varname) =>
          match variable_from_module modname varname with
          | Some cbv => ROk a (<["_obj" := VNone]> (<["_callback" := cbv]> kw))
          | None => RFail
          end
      end
  | None => ROk a kw
  end.

(** One entry of [restore]'s loop up to the pool call: the unpacking
    [store_key, (args, kwargs)] of the [for] header, outside the [try] (a
    bare-key value, a 6-tuple, fails it with ValueError), then the [try]
    block; [variable_from_module m v] returns [None] when the import raises. *)
Definition restore_entry (variable_from_module : string -> string -> option PyVal)
    (server_reload : bool) (k : StoreKey) (e : Entry) : RestoreRes :=
  match e with
  | EKey _ => RRaise ValueError
  | EPayload a kw =>
      if negb (sk_persistent k) && negb server_reload then RSkip
      else match sk_obj k, sk_methodname k with
           | Some o, Some m =>
               if py_truthy (VStr m)
               then ROk a (<["_obj" := VObj o]> (<["_callback" := VStr m]> kw))
               else restore_path variable_from_module k a kw
           | _, _ => restore_path variable_from_module k a kw
           end
  end.

(** The [for] loop of [restore]; [ticker_storage] is the new dict, bound to
    [self.ticker_storage] after every entry that is kept.  The call
    [self.ticker_pool.add] is outside the [try]: its exception ends the
    loop. *)
Fixpoint restore_loop (variable_from_module : string -> string -> option PyVal)
    (server_reload : bool) (items : list (StoreKey * Entry))
    (new_storage : gmap StoreKey Entry) (h : HState) : HState * option PyExc :=
  match items with
  | [] => (h, None)
  | (k, e) :: rest =>
      match restore_entry variable_from_module server_reload k e with
      | RSkip => restore_loop variable_from_module server_reload rest new_storage h
      | RFail =>
          restore_loop variable_from_module server_reload rest new_storage
            (add_log h [LogErr "Tickerhandler: Removing malformed ticker"])
      | RRaise ex => (h, Some ex)
      | ROk a kw =>
          let ns := <[k := EPayload a kw]> new_storage in
          let h1 := set_storage h ns in
          let '(p, r) := pool_add (tickers h1) k a kw in
          match r with
          | Some ex => (set_tickers h1 p, Some ex)
          | None => restore_loop variable_from_module server_reload rest ns (set_tickers h1 p)
          end
      end
  end.

(** [TickerHandler.restore(server_reload=True)]; the items are visited in
    the order of [map_to_list]. *)
Definition restore (variable_from_module : string -> string -> option PyVal)
    (h : HState) (server_reload : bool) : HState * option PyExc :=
  match stored h with
  | None => (h, None)
  | Some tab => restore_loop variable_from_module server_reload (map_to_list tab) ∅ h
  end.

(** Firing the pool's ticker at [interval]. *)
Definition pool_fire (alive : Entity -> bool) (outcome : Outcome) (p : Pool) (interval : Z)
  : Pool * FireResult :=
  match p !! interval with
  | Some t => let r := ticker_callback alive outcome t in (<[interval := fr_ticker r]> p, r)
  | None => (p, mkFireResult (new_ticker interval) [] [] None)
  end.

(** [TickerPool.add] applied to a sequence of subscriptions. *)
Fixpoint pool_add_all (p : Pool) (subs : list (StoreKey * args * kwargs)) : Pool :=
  match subs with
  | [] => p
  | (k, a, kw) :: rest => pool_add_all (fst (pool_add p k a kw)) rest
  end.

(** * Properties *)

(** ** Basic facts about tickers and the pool *)

Lemma validate_subscriptions (t : Ticker) (sd : PyVal) :
  subscriptions (validate t sd).1 = subscriptions t.
Proof.
  unfold validate, task_start. destruct (task_running t); repeat case_decide; try done.
  by destruct (Z.ltb _ _).
Qed.

Lemma ticker_add_subscriptions (t : Ticker) (k : StoreKey) (a : args) (kw : kwargs) :
  subscriptions (ticker_add t k a kw).1 = <[k := (a, delete "_start_delay" kw)]> (subscriptions t).
Proof. unfold ticker_add, kw_pop. simpl. by rewrite validate_subscriptions. Qed.

Lemma ticker_remove_subscriptions (t : Ticker) (k : StoreKey) :
  subscriptions (ticker_remove t k).1 = delete k (subscriptions t).
Proof. unfold ticker_remove. by rewrite validate_subscriptions. Qed.

Lemma ticker_stop_subscriptions (t : Ticker) : subscriptions (ticker_stop t).1 = ∅.
Proof. unfold ticker_stop. by rewrite validate_subscriptions. Qed.

(** [Ticker.stop] raises nothing and leaves the task stopped. *)
Lemma ticker_stop_ok (t : Ticker) :
  (ticker_stop t).2 = None /\ task_running (ticker_stop t).1 = false.
Proof.
  unfold ticker_stop, validate. simpl. rewrite decide_True by done.
  destruct (task_running t) eqn:Hr; simpl; by rewrite ?Hr.
Qed.

(** [validate] keeps a running ticker running while it has subscriptions,
    and never starts a ticker without any. *)
Lemma validate_running_ok (t : Ticker) (sd : PyVal) :
  (task_running t = true \/ subscriptions t = ∅) ->
  (validate t sd).2 = None /\
  (task_running (validate t sd).1 = true \/ subscriptions (validate t sd).1 = ∅).
Proof.
  intros H. unfold validate. destruct (task_running t) eqn:Hr.
  - case_decide; simpl; (split; [done|]); [by right|by left].
  - destruct H as [H|H]; [done|]. rewrite decide_True by done. simpl. split; [done|]. by right.
Qed.

(** The cleanup of [_callback]: [remove] on a ticker that is running (or
    has no subscriptions) raises nothing and leaves it so. *)
Lemma cleanup_running_ok (t : Ticker) (k : StoreKey) :
  (task_running t = true \/ subscriptions t = ∅) ->
  (ticker_remove t k).2 = None /\
  (task_running (ticker_remove t k).1 = true \/ subscriptions (ticker_remove t k).1 = ∅).
Proof.
  intros H. unfold ticker_remove. apply validate_running_ok.
  destruct H as [H|H]; [by left|right]. simpl. by rewrite H, delete_empty.
Qed.

Lemma validate_start_ok (t : Ticker) (sd : PyVal) :
  (0 <= t_interval t)%Z -> subscriptions t ≠ ∅ ->
  (validate t sd).2 = None /\ task_running (validate t sd).1 = true.
Proof.
  intros Hi Hs. unfold validate, task_start. destruct (task_running t) eqn:Hr.
  - rewrite decide_False by done. simpl. by rewrite Hr.
  - rewrite decide_False by done. destruct (Z.ltb_spec (t_interval t) 0); [lia|]. done.
Qed.

Lemma validate_empty (t : Ticker) (sd : PyVal) :
  subscriptions t = ∅ -> (validate t sd).2 = None /\ task_running (validate t sd).1 = false.
Proof.
  intros Hs. unfold validate.
  destruct (task_running t) eqn:Hr; rewrite decide_True by done; simpl; by rewrite ?Hr.
Qed.

(** A stopped ticker with subscriptions and a negative interval:
    [task.start] raises ValueError and nothing changes. *)
Lemma validate_neg (t : Ticker) (sd : PyVal) :
  (t_interval t < 0)%Z -> task_running t = false -> subscriptions t ≠ ∅ ->
  validate t sd = (t, Some ValueError).
Proof.
  intros Hi Hr Hs. unfold validate, task_start. rewrite Hr, decide_False by done.
  destruct (Z.ltb_spec (t_interval t) 0); [done|lia].
Qed.

Lemma validate_interval (t : Ticker) (sd : PyVal) : t_interval (validate t sd).1 = t_interval t.
Proof.
  unfold validate, task_start. destruct (task_running t); repeat case_decide; try done.
  by destruct (Z.ltb _ _).
Qed.

Lemma ticker_add_eq (t : Ticker) (k : StoreKey) (a : args) (kw : kwargs) :
  ticker_add t k a kw =
    validate (set_subscriptions t (<[k := (a, delete "_start_delay" kw)]> (subscriptions t)))
      (kw_get "_start_delay" VNone kw).
Proof. reflexivity. Qed.

Lemma ticker_add_interval (t : Ticker) (k : StoreKey) (a : args) (kw : kwargs) :
  t_interval (ticker_add t k a kw).1 = t_interval t.
Proof. rewrite ticker_add_eq. by rewrite validate_interval. Qed.

Lemma ticker_remove_interval (t : Ticker) (k : StoreKey) :
  t_interval (ticker_remove t k).1 = t_interval t.
Proof. unfold ticker_remove. by rewrite validate_interval. Qed.

Lemma ticker_stop_interval (t : Ticker) : t_interval (ticker_stop t).1 = t_interval t.
Proof. unfold ticker_stop. by rewrite validate_interval. Qed.


Lemma truthy_int (z : Z) : py_truthy (VInt z) = negb (Z.eqb z 0).
Proof. reflexivity. Qed.

Lemma pool_add_lookup (p : Pool) (k : StoreKey) (a : args) (kw : kwargs) (J : Z) :
  sk_interval k ≠ 0%Z ->
  fst (pool_add p k a kw) !! J =
    if decide (sk_interval k = J)
    then Some (ticker_add (default (new_ticker (sk_interval k)) (p !! sk_interval k)) k a kw).1
    else p !! J.
Proof.
  intros Hk. unfold pool_add. rewrite truthy_int.
  destruct (Z.eqb_spec (sk_interval k) 0); [done|]. simpl.
  set (t := match p !! sk_interval k with Some t => t | None => _ end).
  destruct (ticker_add t k a kw) as [t' r] eqn:Ht. simpl.
  rewrite lookup_insert. case_decide; [|done]. subst.
  assert (Hd : t = default (new_ticker (sk_interval k)) (p !! sk_interval k))
    by (unfold t; by destruct (p !! sk_interval k)).
  by rewrite <- Hd, Ht.
Qed.

Lemma pool_add_zero (p : Pool) (k : StoreKey) (a : args) (kw : kwargs) :
  sk_interval k = 0%Z -> fst (pool_add p k a kw) = p.
Proof. intros Hk. unfold pool_add. by rewrite Hk. Qed.

(** The pool holds, at interval [I], a ticker subscribed by [k]. *)
Definition pool_has (p : Pool) (I : Z) (k : StoreKey) : Prop :=
  exists t, p !! I = Some t /\ is_Some (subscriptions t !! k).

(** Every ticker of the pool was built as [Ticker(interval)] for its key. *)
Definition pool_intervals_ok (p : Pool) : Prop :=
  forall J t, p !! J = Some t -> t_interval t = J.

(** The same, as a check. *)
Definition pool_intervals_okb (p : Pool) : bool :=
  forallb (fun Jt => Z.eqb (t_interval Jt.2) Jt.1) (map_to_list p).

Lemma pool_intervals_okb_spec (p : Pool) : pool_intervals_okb p = true -> pool_intervals_ok p.
Proof.
  unfold pool_intervals_okb. rewrite forallb_forall. intros H J t Ht.
  assert (Hin : In (J, t) (map_to_list p)) by (apply list_elem_of_In; by apply elem_of_map_to_list).
  specialize (H _ Hin). simpl in H. by apply Z.eqb_eq.
Qed.

Lemma pool_add_unfold (p : Pool) (k : StoreKey) (a : args) (kw : kwargs) :
  sk_interval k ≠ 0%Z ->
  let t0 := default (new_ticker (sk_interval k)) (p !! sk_interval k) in
  pool_add p k a kw = (<[sk_interval k := (ticker_add t0 k a kw).1]> p, (ticker_add t0 k a kw).2).
Proof.
  intros Hk t0. unfold pool_add. rewrite truthy_int.
  destruct (Z.eqb_spec (sk_interval k) 0); [done|]. simpl.
  replace (match p !! sk_interval k with Some t => t | None => new_ticker (sk_interval k) end) with t0
    by (unfold t0; by destruct (p !! sk_interval k)).
  by destruct (ticker_add t0 k a kw).
Qed.

Lemma default_ticker_interval (p : Pool) (I : Z) :
  pool_intervals_ok p -> t_interval (default (new_ticker I) (p !! I)) = I.
Proof. intros Hp. destruct (p !! I) eqn:Ht; simpl; [by apply Hp|done]. Qed.

Lemma pool_add_intervals_ok (p : Pool) (k : StoreKey) (a : args) (kw : kwargs) :
  pool_intervals_ok p -> pool_intervals_ok (fst (pool_add p k a kw)).
Proof.
  intros Hp. destruct (Z.eq_dec (sk_interval k) 0%Z) as [H0|H0].
  { by rewrite pool_add_zero. }
  rewrite pool_add_unfold by done. simpl. intros J t. rewrite lookup_insert. case_decide as HJ.
  - intros [= <-]. subst J. rewrite ticker_add_interval. by apply default_ticker_interval.
  - apply Hp.
Qed.

Lemma pool_remove_eq (p : Pool) (k : StoreKey) :
  pool_remove p k =
    match p !! sk_interval k with
    | Some t => (<[sk_interval k := (ticker_remove t k).1]> p, (ticker_remove t k).2)
    | None => (p, None)
    end.
Proof.
  unfold pool_remove. destruct (p !! sk_interval k) as [t|]; [|done].
  destruct (ticker_remove t k) as [t1 [e|]]; [done|]. by rewrite lookup_insert_eq.
Qed.

Lemma pool_remove_intervals_ok (p : Pool) (k : StoreKey) :
  pool_intervals_ok p -> pool_intervals_ok (pool_remove p k).1.
Proof.
  intros Hp. rewrite pool_remove_eq. destruct (p !! sk_interval k) as [t|] eqn:Ht; [|done].
  simpl. intros J t'. rewrite lookup_insert. case_decide as HJ.
  - intros [= <-]. subst J. rewrite ticker_remove_interval. by apply Hp.
  - apply Hp.
Qed.

Lemma pool_stop_intervals_ok (p : Pool) (i : option Z) :
  pool_intervals_ok p -> pool_intervals_ok (pool_stop p i).
Proof.
  intros Hp.
  assert (Hall : pool_intervals_ok ((fun t => (ticker_stop t).1) <$> p)).
  { intros J t. rewrite lookup_fmap. destruct (p !! J) eqn:Ht; simpl; [|done].
    intros [= <-]. rewrite ticker_stop_interval. by apply Hp. }
  unfold pool_stop. destruct i as [i|]; [|done].
  destruct (py_truthy (VInt i)); [|done]. destruct (p !! i) as [t|] eqn:Ht; [|done].
  intros J t'. rewrite lookup_insert. case_decide as HJ.
  - intros [= <-]. subst J. rewrite ticker_stop_interval. by apply Hp.
  - apply Hp.
Qed.


Lemma pool_add_has_new (p : Pool) (k : StoreKey) (a : args) (kw : kwargs) :
  sk_interval k ≠ 0%Z -> pool_has (fst (pool_add p k a kw)) (sk_interval k) k.
Proof.
  intros Hk. unfold pool_has. rewrite pool_add_lookup by done. rewrite decide_True; [|done].
  eexists. split; [done|]. rewrite ticker_add_subscriptions, lookup_insert_eq. by eexists.
Qed.

Lemma pool_add_has_old (p : Pool) (k k' : StoreKey) (a : args) (kw : kwargs) (I : Z) :
  pool_has p I k' -> pool_has (fst (pool_add p k a kw)) I k'.
Proof.
  intros (t & Ht & Hs).
  destruct (Z.eq_dec (sk_interval k) 0%Z) as [H0|H0].
  { rewrite pool_add_zero by done. by exists t. }
  unfold pool_has. rewrite pool_add_lookup by done. case_decide as HI.
  - subst I. rewrite Ht. eexists. split; [done|]. simpl.
    rewrite ticker_add_subscriptions, lookup_insert. case_decide; [by eexists|done].
  - by exists t.
Qed.

Lemma pool_add_all_has_old (p : Pool) (subs : list (StoreKey * args * kwargs)) (I : Z) (k' : StoreKey) :
  pool_has p I k' -> pool_has (pool_add_all p subs) I k'.
Proof.
  revert p. induction subs as [|[[k a] kw] rest IH]; intros p H; simpl; [done|].
  apply IH. by apply pool_add_has_old.
Qed.

Lemma pool_add_all_other (p : Pool) (subs : list (StoreKey * args * kwargs)) (I J : Z) :
  Forall (fun s => sk_interval s.1.1 = I) subs -> J ≠ I ->
  pool_add_all p subs !! J = p !! J.
Proof.
  revert p. induction subs as [|[[k a] kw] rest IH]; intros p HF HJ; simpl; [done|].
  apply Forall_cons in HF as [Hk Hrest]. simpl in Hk.
  rewrite IH by done. destruct (Z.eq_dec (sk_interval k) 0%Z) as [H0|H0].
  - by rewrite pool_add_zero.
  - rewrite pool_add_lookup by done. rewrite decide_False; [done|]. congruence.
Qed.

Lemma pool_add_all_has (p : Pool) (subs : list (StoreKey * args * kwargs)) (I : Z) :
  I ≠ 0%Z -> Forall (fun s => sk_interval s.1.1 = I) subs ->
  Forall (fun s => pool_has (pool_add_all p subs) I s.1.1) subs.
Proof.
  intros HI. revert p. induction subs as [|[[k a] kw] rest IH]; intros p HF; simpl; [done|].
  apply Forall_cons in HF as [Hk Hrest]. simpl in Hk. constructor.
  - simpl. apply pool_add_all_has_old. subst I. by apply pool_add_has_new.
  - by apply IH.
Qed.

(** [C1] For subscriptions that all carry the interval [I] (non-zero), any
    sequence of [TickerPool.add] calls leaves exactly one ticker for [I] in
    [tickers] (the domain gains [I] and nothing else), and that single ticker
    holds every added store key. *)
Theorem pool_one_ticker_per_interval (p : Pool) (I : Z) (subs : list (StoreKey * args * kwargs)) :
  I ≠ 0%Z -> subs ≠ [] -> Forall (fun s => sk_interval s.1.1 = I) subs ->
  dom (pool_add_all p subs) = {[I]} ∪ dom p /\
  exists t, pool_add_all p subs !! I = Some t /\
    Forall (fun s => is_Some (subscriptions t !! s.1.1)) subs.
Proof.
  intros HI Hne HF.
  pose proof (pool_add_all_has p subs I HI HF) as Hhas.
  destruct subs as [|s0 rest]; [done|].
  pose proof Hhas as Hhas0. apply Forall_cons in Hhas0 as [(t & Ht & _) _].
  split.
  - apply set_eq. intros J. rewrite elem_of_union, elem_of_singleton, !elem_of_dom.
    destruct (Z.eq_dec J I) as [->|HJ].
    + rewrite Ht. split; [by left|]. intros _. by eexists.
    + rewrite (pool_add_all_other p _ I J HF HJ). naive_solver.
  - exists t. split; [done|].
    eapply Forall_impl; [exact Hhas|]. intros s (t' & Ht' & Hs). congruence.
Qed.

(** ** TickerPool.remove *)

(** [C2] After [TickerPool.remove] of the only subscription of interval [I],
    the pool still maps [I] to a ticker, now with no subscriptions: the
    emptiness test [if not self.tickers[interval]] looks at the Ticker
    instance, which is always truthy, so the ticker is never discarded. *)
Theorem pool_remove_last_keeps_ticker (p : Pool) (k : StoreKey) (t : Ticker) (pl : Payload) :
  p !! sk_interval k = Some t -> subscriptions t = {[k := pl]} ->
  exists t', (pool_remove p k).1 !! sk_interval k = Some t' /\ subscriptions t' = ∅.
Proof.
  intros Ht Hs. unfold pool_remove. rewrite Ht.
  pose proof (ticker_remove_subscriptions t k) as Hsub.
  destruct (ticker_remove t k) as [t1 [e|]]; simpl in *.
  - rewrite lookup_insert_eq. eexists. split; [done|].
    rewrite Hsub, Hs. apply delete_singleton_eq.
  - rewrite lookup_insert_eq. simpl. rewrite lookup_insert_eq. eexists. split; [done|].
    rewrite Hsub, Hs. apply delete_singleton_eq.
Qed.

(** ** save *)

(** kwargs without the reserved keys injected by the handler. *)
Definition strip_reserved (kw : kwargs) : kwargs :=
  delete "_start_delay" (delete "_obj" (delete "_callback" kw)).

(** Two table values that differ at most in the reserved kwargs. *)
Definition entry_equiv (e1 e2 : Entry) : Prop :=
  match e1, e2 with
  | EKey k1, EKey k2 => k1 = k2
  | EPayload a1 kw1, EPayload a2 kw2 => a1 = a2 /\ strip_reserved kw1 = strip_reserved kw2
  | _, _ => False
  end.

Lemma entry_equiv_refl (e : Entry) : entry_equiv e e.
Proof. destruct e; simpl; auto. Qed.

Lemma entry_equiv_sym (e1 e2 : Entry) : entry_equiv e1 e2 -> entry_equiv e2 e1.
Proof. destruct e1, e2; simpl; naive_solver. Qed.

Lemma entry_equiv_trans (e1 e2 e3 : Entry) :
  entry_equiv e1 e2 -> entry_equiv e2 e3 -> entry_equiv e1 e3.
Proof. destruct e1, e2, e3; simpl; naive_solver congruence. Qed.

Lemma strip_insert_start_delay (kw : kwargs) (v : PyVal) :
  strip_reserved (<["_start_delay" := v]> kw) = strip_reserved kw.
Proof.
  unfold strip_reserved.
  rewrite delete_insert_ne; [|done]. rewrite delete_insert_ne; [|done].
  by rewrite delete_insert_eq.
Qed.

Lemma strip_insert_obj (kw : kwargs) (v : PyVal) :
  strip_reserved (<["_obj" := v]> kw) = strip_reserved kw.
Proof.
  unfold strip_reserved. rewrite delete_insert_ne; [|done].
  by rewrite delete_insert_eq.
Qed.

Lemma strip_insert_callback (kw : kwargs) (v : PyVal) :
  strip_reserved (<["_callback" := v]> kw) = strip_reserved kw.
Proof. unfold strip_reserved. by rewrite delete_insert_eq. Qed.

Definition is_ekey (e : Entry) : bool := match e with EKey _ => true | _ => false end.

Lemma entry_equiv_ekey (e1 e2 : Entry) : entry_equiv e1 e2 -> is_ekey e1 = is_ekey e2.
Proof. destruct e1, e2; simpl; naive_solver. Qed.

(** The items still to be visited agree, up to [entry_equiv], with the
    current table. *)
Definition items_agree (items : list (StoreKey * Entry)) (tab : gmap StoreKey Entry) : Prop :=
  forall k e, In (k, e) items -> exists e', tab !! k = Some e' /\ entry_equiv e e'.

Lemma items_agree_step (k0 : StoreKey) (a0 : args) (kw0 : kwargs) (v : PyVal)
    (rest : list (StoreKey * Entry)) (tab : gmap StoreKey Entry) :
  items_agree ((k0, EPayload a0 kw0) :: rest) tab ->
  items_agree rest (<[k0 := EPayload a0 (<["_start_delay" := v]> kw0)]> tab).
Proof.
  intros Hag k' e' Hin.
  destruct (Hag k0 (EPayload a0 kw0) (or_introl eq_refl)) as (e0' & He0' & Heq0).
  destruct (Hag k' e' (or_intror Hin)) as (e'' & He'' & Heq').
  rewrite lookup_insert. case_decide as Hkk; [|by exists e''].
  subst k'. rewrite He0' in He''. injection He'' as <-.
  eexists. split; [reflexivity|].
  eapply entry_equiv_trans; [exact Heq'|].
  eapply entry_equiv_trans; [apply entry_equiv_sym; exact Heq0|].
  simpl. split; [reflexivity|]. by rewrite strip_insert_start_delay.
Qed.

Lemma save_loop_equiv (sd : gmap Z PyVal) (items : list (StoreKey * Entry)) (tab : gmap StoreKey Entry) :
  items_agree items tab ->
  forall k e, tab !! k = Some e ->
  exists e', (save_loop sd items tab).1 !! k = Some e' /\ entry_equiv e e'.
Proof.
  revert tab. induction items as [|[k0 e0] rest IH]; intros tab Hag k e Hk; simpl.
  { exists e. split; [done|]. apply entry_equiv_refl. }
  destruct e0 as [a0 kw0|k1].
  2:{ exists e. split; [done|]. apply entry_equiv_refl. }
  destruct (Hag k0 (EPayload a0 kw0) (or_introl eq_refl)) as (e0' & He0' & Heq0).
  set (e1 := EPayload a0 (<["_start_delay" := delays_get sd (sk_index1 k0)]> kw0)).
  assert (Hnew : entry_equiv (EPayload a0 kw0) e1).
  { simpl. split; [reflexivity|]. by rewrite strip_insert_start_delay. }
  pose proof (items_agree_step k0 a0 kw0 (delays_get sd (sk_index1 k0)) rest tab Hag) as Hag'.
  destruct (decide (k = k0)) as [->|Hne].
  - destruct (IH _ Hag' k0 e1 (lookup_insert_eq _ _ _)) as (e2 & He2 & Heq2).
    exists e2. split; [exact He2|]. rewrite Hk in He0'. injection He0' as <-.
    eapply entry_equiv_trans; [apply entry_equiv_sym; exact Heq0|].
    eapply entry_equiv_trans; [exact Hnew|exact Heq2].
  - apply (IH _ Hag' k e). rewrite lookup_insert_ne; [exact Hk|congruence].
Qed.

Lemma save_loop_dom (sd : gmap Z PyVal) (items : list (StoreKey * Entry)) (tab : gmap StoreKey Entry) :
  items_agree items tab ->
  forall k, is_Some ((save_loop sd items tab).1 !! k) <-> is_Some (tab !! k).
Proof.
  revert tab. induction items as [|[k0 e0] rest IH]; intros tab Hag k; simpl; [done|].
  destruct e0 as [a0 kw0|k1]; [|done].
  destruct (Hag k0 (EPayload a0 kw0) (or_introl eq_refl)) as (e0' & He0' & _).
  rewrite IH by (by apply items_agree_step).
  rewrite lookup_insert. case_decide; [|done]. subst. rewrite He0'. naive_solver.
Qed.

Lemma save_loop_ok (sd : gmap Z PyVal) (items : list (StoreKey * Entry)) (tab : gmap StoreKey Entry) :
  (save_loop sd items tab).2 = None <-> Forall (fun ke => is_ekey ke.2 = false) items.
Proof.
  revert tab. induction items as [|[k0 e0] rest IH]; intros tab; simpl.
  - split; [constructor|done].
  - destruct e0 as [a0 kw0|k1]; rewrite Forall_cons; simpl.
    + rewrite IH. naive_solver.
    + split; [done|]. intros [H _]. done.
Qed.

Lemma items_agree_map_to_list (tab : gmap StoreKey Entry) : items_agree (map_to_list tab) tab.
Proof.
  intros k e Hin. apply list_elem_of_In, elem_of_map_to_list in Hin.
  exists e. split; [done|]. apply entry_equiv_refl.
Qed.

Lemma save_loop_other (sd : gmap Z PyVal) (items : list (StoreKey * Entry)) (tab : gmap StoreKey Entry) (k : StoreKey) :
  k ∉ items.*1 -> (save_loop sd items tab).1 !! k = tab !! k.
Proof.
  revert tab. induction items as [|[k0 e0] rest IH]; intros tab Hk; simpl; [done|].
  rewrite fmap_cons, elem_of_cons in Hk. simpl in Hk.
  destruct e0 as [a0 kw0|k1]; [|done].
  rewrite IH by naive_solver. rewrite lookup_insert_ne; [done|naive_solver].
Qed.

Lemma delays_get_index1 (sd : gmap Z PyVal) (k : StoreKey) : delays_get sd (sk_index1 k) = VNone.
Proof. unfold sk_index1. by destruct (sk_methodname k). Qed.

Lemma save_loop_start_delay (sd : gmap Z PyVal) (items : list (StoreKey * Entry)) (tab : gmap StoreKey Entry) (k : StoreKey) :
  (save_loop sd items tab).2 = None -> k ∈ items.*1 ->
  exists a kw, (save_loop sd items tab).1 !! k = Some (EPayload a kw) /\ kw !! "_start_delay" = Some VNone.
Proof.
  revert tab. induction items as [|[k0 e0] rest IH]; intros tab Hok Hk; simpl in *.
  { by apply not_elem_of_nil in Hk. }
  destruct e0 as [a0 kw0|k1]; [|done].
  rewrite elem_of_cons in Hk.
  destruct (decide (k ∈ rest.*1)) as [Hin|Hnin]; [by apply IH|].
  destruct Hk as [->|]; [|done].
  rewrite save_loop_other by done. rewrite lookup_insert_eq.
  do 2 eexists. split; [reflexivity|]. by rewrite lookup_insert_eq, delays_get_index1.
Qed.

Lemma save_tickers (nct : Ticker -> PyVal) (h : HState) : tickers (save nct h).1 = tickers h.
Proof. unfold save. case_decide; [done|]. by destruct (save_loop _ _ _) as [? []]. Qed.

Lemma save_log (nct : Ticker -> PyVal) (h : HState) : log (save nct h).1 = log h.
Proof. unfold save. case_decide; [done|]. by destruct (save_loop _ _ _) as [? []]. Qed.

Lemma save_storage (nct : Ticker -> PyVal) (h : HState) :
  ticker_storage (save nct h).1 =
    if decide (ticker_storage h = ∅) then ticker_storage h
    else (save_loop (nct <$> tickers h) (map_to_list (ticker_storage h)) (ticker_storage h)).1.
Proof. unfold save. case_decide; [done|]. by destruct (save_loop _ _ _) as [? []]. Qed.

Lemma save_storage_equiv (nct : Ticker -> PyVal) (h : HState) (k : StoreKey) (e : Entry) :
  ticker_storage h !! k = Some e ->
  exists e', ticker_storage (save nct h).1 !! k = Some e' /\ entry_equiv e e'.
Proof.
  intros Hk. rewrite save_storage. case_decide.
  - exists e. split; [done|]. apply entry_equiv_refl.
  - apply save_loop_equiv; [apply items_agree_map_to_list|done].
Qed.

Lemma save_storage_dom (nct : Ticker -> PyVal) (h : HState) (k : StoreKey) :
  is_Some (ticker_storage (save nct h).1 !! k) <-> is_Some (ticker_storage h !! k).
Proof.
  rewrite save_storage. case_decide; [done|].
  apply save_loop_dom, items_agree_map_to_list.
Qed.

(** [save] raises exactly when a value of the table is not an [(args, kwargs)] pair. *)
Lemma save_ok_iff (nct : Ticker -> PyVal) (h : HState) :
  (save nct h).2 = None <-> forall k e, ticker_storage h !! k = Some e -> is_ekey e = false.
Proof.
  unfold save. case_decide as H0.
  - simpl. split; [|done]. intros _ k e Hk. rewrite H0, lookup_empty in Hk. done.
  - destruct (save_loop _ _ _) as [tab r] eqn:Hl.
    assert (Hr : r = None <-> Forall (fun ke => is_ekey ke.2 = false) (map_to_list (ticker_storage h))).
    { rewrite <- (save_loop_ok (nct <$> tickers h) _ (ticker_storage h)). by rewrite Hl. }
    rewrite Forall_forall in Hr.
    destruct r as [e|]; simpl.
    + split; [done|]. intros Hall. assert (Some e = None); [|done]. apply Hr.
      intros [k e'] Hin. apply (Hall k e'). by apply elem_of_map_to_list.
    + split; [|done]. intros _ k e' Hk. apply (proj1 Hr eq_refl (k, e')).
      by apply elem_of_map_to_list.
Qed.

(** [C3] [save] does not store the remaining phase: whenever it succeeds on a
    non-empty table, every entry of the table, and of the persisted copy,
    carries [_start_delay = None], whatever [next_call_time] reports for the
    entry's interval.  [store_key[1]] is the method name, not the interval. *)
Theorem save_start_delay_is_none (nct : Ticker -> PyVal) (h : HState) (k : StoreKey) (a : args) (kw : kwargs) :
  (save nct h).2 = None -> ticker_storage h ≠ ∅ ->
  ticker_storage (save nct h).1 !! k = Some (EPayload a kw) ->
  stored (save nct h).1 = Some (ticker_storage (save nct h).1) /\ kw !! "_start_delay" = Some VNone.
Proof.
  intros Hok Hne Hk. pose proof Hok as Hok'. unfold save in Hok, Hk |- *.
  rewrite decide_False in Hok, Hk |- * by done.
  destruct (save_loop _ _ _) as [tab r] eqn:Hl. destruct r; [done|]. simpl in *.
  split; [done|].
  assert (Hin : k ∈ (map_to_list (ticker_storage h)).*1).
  { apply list_elem_of_fmap. pose proof (save_loop_dom (nct <$> tickers h) _ _
      (items_agree_map_to_list (ticker_storage h)) k) as Hd.
    rewrite Hl in Hd. simpl in Hd. destruct (proj1 Hd (mk_is_Some _ _ Hk)) as [e He].
    exists (k, e). split; [done|]. by apply elem_of_map_to_list. }
  destruct (save_loop_start_delay (nct <$> tickers h) (map_to_list (ticker_storage h)) (ticker_storage h) k) as (a' & kw' & Hk' & Hs);
    [by rewrite Hl|done|].
  rewrite Hl in Hk'. simpl in Hk'. rewrite Hk in Hk'. congruence.
Qed.

(** ** clear *)

Lemma index1_ne_int (k : StoreKey) (i : Z) : pyval_eqb (sk_index1 k) (VInt i) = false.
Proof. unfold sk_index1. by destruct (sk_methodname k). Qed.

Lemma pool_stop_at (p : Pool) (i : Z) (t : Ticker) :
  pool_stop p (Some i) !! i = Some t -> subscriptions t = ∅.
Proof.
  unfold pool_stop. destruct (py_truthy (VInt i)).
  - destruct (p !! i) as [t0|] eqn:Hi.
    + rewrite lookup_insert_eq. intros [= <-]. apply ticker_stop_subscriptions.
    + rewrite lookup_fmap, Hi. done.
  - rewrite lookup_fmap. destruct (p !! i); simpl; [|done].
    intros [= <-]. apply ticker_stop_subscriptions.
Qed.

(** [C4] [clear(interval)] with a non-zero interval does not remove the
    entries of that interval from the table: it keeps every key and replaces
    every value by the key itself ([store_key[1]] is the method name, never
    equal to the int interval); when the table is not empty the following
    [save] then raises ValueError and nothing is persisted.  On the pool side
    the ticker of that interval is emptied. *)
Theorem clear_interval_keeps_entries (nct : Ticker -> PyVal) (h : HState) (i : Z) :
  i ≠ 0%Z ->
  (forall k, ticker_storage (handler_clear nct h (Some i)).1 !! k = (fun _ => EKey k) <$> ticker_storage h !! k) /\
  (ticker_storage h ≠ ∅ ->
     (handler_clear nct h (Some i)).2 = Some ValueError /\ stored (handler_clear nct h (Some i)).1 = stored h) /\
  (forall t, tickers (handler_clear nct h (Some i)).1 !! i = Some t -> subscriptions t = ∅).
Proof.
  intros Hi. unfold handler_clear. rewrite truthy_int.
  destruct (Z.eqb_spec i 0) as [|_]; [done|]. simpl.
  set (tab := map_imap _ (ticker_storage h)).
  assert (Htab : forall k, tab !! k = (fun _ => EKey k) <$> ticker_storage h !! k).
  { intros k. unfold tab. rewrite map_lookup_imap. rewrite index1_ne_int.
    by destruct (ticker_storage h !! k). }
  unfold save. simpl. case_decide as Hempty.
  { simpl. split; [done|]. split; [|apply pool_stop_at].
    intros Hne. exfalso. apply Hne. apply map_eq. intros k.
    rewrite lookup_empty. pose proof (Htab k) as Hk. rewrite Hempty, lookup_empty in Hk.
    by destruct (ticker_storage h !! k). }
  destruct (map_to_list tab) as [|[k0 e0] rest] eqn:Hl.
  { by apply map_to_list_empty_iff in Hl. }
  assert (He0 : tab !! k0 = Some e0).
  { apply elem_of_map_to_list. rewrite Hl. by left. }
  rewrite Htab in He0. destruct (ticker_storage h !! k0); simpl in He0; [|done].
  injection He0 as <-. simpl.
  split; [done|]. split; [done|]. apply pool_stop_at.
Qed.

(** ** Concrete runs *)

(** A subscription of entity #1's [at_tick] every 15 seconds. *)
Definition demo_key : StoreKey := (Some 1%nat, Some "at_tick", None, 15%Z, "", true).
Definition demo_key2 : StoreKey := (Some 2%nat, Some "at_tick", None, 15%Z, "", true).

(** The handler after [add(15, obj1.at_tick)]: table, running ticker at 15. *)
Definition demo_state : HState :=
  mkH {[demo_key := EPayload [] ∅]} None
      {[15%Z := mkTicker 15 {[demo_key := ([], ∅)]} true VNone]} [].

(** The task of every ticker is due in 7 seconds. *)
Definition demo_next_call (t : Ticker) : PyVal := VInt 7.

(** Two subscriptions of interval 15. *)
Definition demo_subs : list (StoreKey * args * kwargs) := [(demo_key, [], ∅); (demo_key2, [VInt 1], ∅)].

Lemma pool_one_ticker_per_interval_witness :
  dom (pool_add_all ∅ demo_subs) = {[15%Z]} ∪ dom (∅ : Pool) /\
  exists t, pool_add_all ∅ demo_subs !! 15%Z = Some t /\
    Forall (fun s => is_Some (subscriptions t !! s.1.1)) demo_subs.
Proof.
  apply pool_one_ticker_per_interval; [lia|discriminate|].
  repeat constructor.
Defined.

Lemma pool_remove_last_keeps_ticker_witness :
  exists t', (pool_remove (tickers demo_state) demo_key).1 !! sk_interval demo_key = Some t' /\ subscriptions t' = ∅.
Proof.
  apply (pool_remove_last_keeps_ticker _ demo_key (mkTicker 15 {[demo_key := ([], ∅)]} true VNone) ([], ∅));
    reflexivity.
Defined.

Lemma save_start_delay_is_none_witness :
  (save demo_next_call demo_state).2 = None /\ ticker_storage demo_state ≠ ∅ /\
  ticker_storage (save demo_next_call demo_state).1 !! demo_key =
    Some (EPayload [] {["_start_delay" := VNone]}) /\
  (stored (save demo_next_call demo_state).1 = Some (ticker_storage (save demo_next_call demo_state).1) /\
   ({["_start_delay" := VNone]} : kwargs) !! "_start_delay" = Some VNone).
Proof.
  assert (H1 : (save demo_next_call demo_state).2 = None) by (vm_compute; reflexivity).
  assert (H2 : ticker_storage demo_state ≠ ∅).
  { intros H. apply (f_equal (lookup demo_key)) in H. vm_compute in H. discriminate. }
  assert (H3 : ticker_storage (save demo_next_call demo_state).1 !! demo_key =
                 Some (EPayload [] {["_start_delay" := VNone]})) by (vm_compute; reflexivity).
  split; [exact H1|]. split; [exact H2|]. split; [exact H3|].
  exact (save_start_delay_is_none _ _ _ _ _ H1 H2 H3).
Defined.

Lemma clear_interval_keeps_entries_witness :
  (15%Z ≠ 0%Z) /\
  (forall k, ticker_storage (handler_clear demo_next_call demo_state (Some 15%Z)).1 !! k =
               (fun _ => EKey k) <$> ticker_storage demo_state !! k) /\
  (ticker_storage demo_state ≠ ∅ ->
     (handler_clear demo_next_call demo_state (Some 15%Z)).2 = Some ValueError /\
     stored (handler_clear demo_next_call demo_state (Some 15%Z)).1 = stored demo_state) /\
  (forall t, tickers (handler_clear demo_next_call demo_state (Some 15%Z)).1 !! 15%Z = Some t ->
             subscriptions t = ∅).
Proof. split; [lia|]. apply clear_interval_keeps_entries. lia. Defined.

(** ** One firing of a ticker *)

Definition cb_of (p : Payload) : PyVal := kw_get "_callback" (VStr "at_tick") p.2.
Definition obj_of (p : Payload) : PyVal := kw_get "_obj" VNone p.2.

(** The firing reaches the subscriber's callable. *)
Definition will_invoke (alive : Entity -> bool) (p : Payload) : bool :=
  match try_body alive None (cb_of p) (obj_of p) with TInvoked _ => true | _ => false end.

(** The payload after the [finally] clause re-stored the popped values. *)
Definition restored (p : Payload) : Payload :=
  (p.1, <["_obj" := obj_of p]> (<["_callback" := cb_of p]> (delete "_obj" (delete "_callback" p.2)))).

Definition raised_of (tb : TryRes) : option PyExc :=
  match tb with TMark => None | TInvoked r => r | TRaise e => Some e end.

(** The key is appended to [to_remove]. *)
Definition marks (alive : Entity -> bool) (outcome : Outcome) (k : StoreKey) (p : Payload) : bool :=
  let tb := try_body alive (outcome k) (cb_of p) (obj_of p) in
  match tb with
  | TMark => true
  | _ => match raised_of tb with Some ObjectDoesNotExist => true | _ => false end
  end.

(** The log lines written for the subscription. *)
Definition fire_log (alive : Entity -> bool) (outcome : Outcome) (k : StoreKey) (p : Payload) : list LogEntry :=
  match raised_of (try_body alive (outcome k) (cb_of p) (obj_of p)) with
  | Some ObjectDoesNotExist => [LogTrace "Removing ticker."]
  | Some e => if is_Exception e then [LogTrace ""] else []
  | None => []
  end.

Lemma try_body_invoked (alive : Entity -> bool) (res : option PyExc) (cb obj : PyVal) :
  (match try_body alive None cb obj with TInvoked _ => true | _ => false end) = true ->
  try_body alive res cb obj = TInvoked res.
Proof.
  unfold try_body. destruct (py_callable cb); [done|]. destruct (py_truthy obj); [|done].
  destruct obj; try done. destruct (alive e); [|done]. by destruct cb.
Qed.

Lemma try_body_raise_exception (alive : Entity -> bool) (res : option PyExc) (cb obj : PyVal) (e : PyExc) :
  try_body alive res cb obj = TRaise e -> is_Exception e = true.
Proof.
  unfold try_body. destruct (py_callable cb); [done|]. destruct (py_truthy obj); [|done].
  destruct obj; try (intros [= <-]; done). destruct (alive _); [|done].
  destruct cb; try done; intros [= <-]; done.
Qed.

Lemma try_body_mark_free (alive : Entity -> bool) (res res' : option PyExc) (cb obj : PyVal) :
  (try_body alive res cb obj = TMark) <-> (try_body alive res' cb obj = TMark).
Proof.
  unfold try_body. destruct (py_callable cb); [done|]. destruct (py_truthy obj); [|done].
  destruct obj; try done. destruct (alive _); [|done]. by destruct cb.
Qed.

Lemma kw_get_delete_ne (key key' : string) (d : PyVal) (kw : kwargs) :
  key ≠ key' -> kw_get key d (delete key' kw) = kw_get key d kw.
Proof. intros H. unfold kw_get. by rewrite lookup_delete_ne. Qed.

Lemma fire_one_spec (alive : Entity -> bool) (outcome : Outcome) (st : FireState) (k : StoreKey) (p : Payload) :
  outcome k ≠ Some BaseExc ->
  fire_one alive outcome st k p =
    (mkFire (<[k := restored p]> (f_subs st))
            (f_to_remove st ++ (if marks alive outcome k p then [k] else []))
            (f_invoked st ++ (if will_invoke alive p then [k] else []))
            (f_log st ++ fire_log alive outcome k p), None).
Proof.
  intros Hb. destruct p as [a kw].
  unfold fire_one, kw_pop, restored, marks, fire_log, will_invoke, cb_of, obj_of. simpl.
  rewrite (kw_get_delete_ne "_obj" "_callback") by done.
  set (cb := kw_get "_callback" (VStr "at_tick") kw).
  set (obj := kw_get "_obj" VNone kw).
  destruct (try_body alive (outcome k) cb obj) as [|r|e] eqn:Htb.
  - apply (try_body_mark_free _ _ None) in Htb. rewrite Htb. simpl. by rewrite !app_nil_r.
  - assert (Hinv : try_body alive None cb obj = TInvoked None).
    { unfold try_body in Htb |- *. destruct (py_callable cb); [done|].
      destruct (py_truthy obj); [|done]. destruct obj; try done.
      destruct (alive _); [|done]. destruct cb; done. }
    rewrite Hinv. simpl.
    assert (r = outcome k) as ->.
    { rewrite (try_body_invoked alive (outcome k) cb obj) in Htb; [congruence|by rewrite Hinv]. }
    destruct (outcome k) as [[]|]; simpl; rewrite ?app_nil_r; done.
  - pose proof (try_body_raise_exception _ _ _ _ _ Htb) as He.
    assert (Hni : match try_body alive None cb obj with TInvoked _ => true | _ => false end = false).
    { unfold try_body in Htb |- *. destruct (py_callable cb); [done|].
      destruct (py_truthy obj); [|done]. destruct obj; try done.
      destruct (alive _); [|done]. destruct cb; done. }
    rewrite Hni. simpl. destruct e; simpl; rewrite ?app_nil_r; done.
Qed.

Definition invoked_keys (alive : Entity -> bool) (items : list (StoreKey * Payload)) : list StoreKey :=
  concat (map (fun kp => if will_invoke alive kp.2 then [kp.1] else []) items).
Definition marked_keys (alive : Entity -> bool) (outcome : Outcome) (items : list (StoreKey * Payload)) : list StoreKey :=
  concat (map (fun kp => if marks alive outcome kp.1 kp.2 then [kp.1] else []) items).
Definition logged (alive : Entity -> bool) (outcome : Outcome) (items : list (StoreKey * Payload)) : list LogEntry :=
  concat (map (fun kp => fire_log alive outcome kp.1 kp.2) items).
Definition restore_all (items : list (StoreKey * Payload)) (m : gmap StoreKey Payload) : gmap StoreKey Payload :=
  fold_left (fun acc kp => <[kp.1 := restored kp.2]> acc) items m.

Lemma fire_loop_spec (alive : Entity -> bool) (outcome : Outcome) (items : list (StoreKey * Payload)) (st : FireState) :
  (forall k, outcome k ≠ Some BaseExc) ->
  fire_loop alive outcome items st =
    (mkFire (restore_all items (f_subs st))
            (f_to_remove st ++ marked_keys alive outcome items)
            (f_invoked st ++ invoked_keys alive items)
            (f_log st ++ logged alive outcome items), None).
Proof.
  intros Hb. revert st. induction items as [|[k p] rest IH]; intros st; simpl.
  { rewrite !app_nil_r. by destruct st. }
  rewrite fire_one_spec by apply Hb. rewrite IH. simpl.
  unfold marked_keys, invoked_keys, logged. simpl. by rewrite !app_assoc.
Qed.

Lemma restore_all_in (items : list (StoreKey * Payload)) (m : gmap StoreKey Payload) (k : StoreKey) (p : Payload) :
  NoDup items.*1 -> In (k, p) items -> restore_all items m !! k = Some (restored p).
Proof.
  revert m. induction items as [|[k0 p0] rest IH]; intros m Hnd Hin; simpl in *; [done|].
  apply NoDup_cons in Hnd as [Hk0 Hnd].
  destruct Hin as [[= -> ->]|Hin]; [|by apply IH].
  assert (Hgen : forall m', k ∉ rest.*1 -> restore_all rest m' !! k = m' !! k).
  { clear. induction rest as [|[k1 p1] rest IH]; intros m' Hn; simpl; [done|].
    rewrite fmap_cons, elem_of_cons in Hn. simpl in Hn.
    rewrite IH by naive_solver. rewrite lookup_insert_ne; naive_solver. }
  unfold restore_all in Hgen. rewrite Hgen by done. apply lookup_insert_eq.
Qed.

Lemma fold_ticker_remove_subs (l : list StoreKey) (t : Ticker) (k : StoreKey) :
  subscriptions (fold_left (fun t k => (ticker_remove t k).1) l t) !! k =
    if decide (k ∈ l) then None else subscriptions t !! k.
Proof.
  revert t. induction l as [|k0 l IH]; intros t; simpl.
  { done. }
  rewrite IH, ticker_remove_subscriptions.
  case_decide as H1; case_decide as H2; rewrite ?elem_of_cons in H2; try done.
  - exfalso. apply H2. by right.
  - destruct H2 as [->|]; [apply lookup_delete_eq|done].
  - rewrite lookup_delete_ne; [done|]. intros ->. apply H2. by left.
Qed.

Lemma in_concat_single {A} (f : A -> bool) (g : A -> StoreKey) (items : list A) (k : StoreKey) :
  k ∈ concat (map (fun x => if f x then [g x] else []) items) <->
  exists x, In x items /\ f x = true /\ g x = k.
Proof.
  induction items as [|x rest IH]; simpl.
  - split; [intros H; by apply not_elem_of_nil in H|naive_solver].
  - rewrite elem_of_app, IH. destruct (f x) eqn:Hf.
    + rewrite list_elem_of_singleton. split.
      * intros [->|(y & ? & ? & ?)]; [exists x; naive_solver|exists y; naive_solver].
      * intros (y & [<-|Hy] & ? & ?); [by left|right; exists y; naive_solver].
    + split.
      * intros [H|(y & ? & ? & ?)]; [by apply not_elem_of_nil in H|exists y; naive_solver].
      * intros (y & [<-|Hy] & ? & ?); [congruence|right; exists y; naive_solver].
Qed.

Lemma cb_of_restored (p : Payload) : cb_of (restored p) = cb_of p.
Proof.
  unfold cb_of, restored, kw_get. simpl. rewrite lookup_insert_ne by done.
  rewrite lookup_insert_eq. unfold cb_of, kw_get. done.
Qed.

Lemma obj_of_restored (p : Payload) : obj_of (restored p) = obj_of p.
Proof. unfold obj_of at 1, restored, kw_get. simpl. by rewrite lookup_insert_eq. Qed.

Lemma will_invoke_restored (alive : Entity -> bool) (p : Payload) :
  will_invoke alive (restored p) = will_invoke alive p.
Proof. unfold will_invoke. by rewrite cb_of_restored, obj_of_restored. Qed.

(** The result of a firing without a propagating exception. *)
Lemma ticker_callback_spec (alive : Entity -> bool) (outcome : Outcome) (t : Ticker) :
  (forall k, outcome k ≠ Some BaseExc) ->
  let items := map_to_list (subscriptions t) in
  ticker_callback alive outcome t =
    mkFireResult
      (fold_left (fun t k => (ticker_remove t k).1) (marked_keys alive outcome items)
         (set_subscriptions t (restore_all items (subscriptions t))))
      (invoked_keys alive items) (logged alive outcome items) None.
Proof.
  intros Hb items. unfold ticker_callback. fold items.
  rewrite fire_loop_spec by done. reflexivity.
Qed.

Lemma ticker_callback_invokes (alive : Entity -> bool) (outcome : Outcome) (t : Ticker) (k : StoreKey) (p : Payload) :
  (forall k', outcome k' ≠ Some BaseExc) ->
  subscriptions t !! k = Some p -> will_invoke alive p = true ->
  In k (fr_invoked (ticker_callback alive outcome t)).
Proof.
  intros Hb Hk Hw. rewrite ticker_callback_spec by done. simpl.
  apply list_elem_of_In. unfold invoked_keys.
  apply (in_concat_single (fun kp => will_invoke alive kp.2) fst).
  exists (k, p). split; [|done]. apply list_elem_of_In. by apply elem_of_map_to_list.
Qed.

Lemma ticker_callback_keeps (alive : Entity -> bool) (outcome : Outcome) (t : Ticker) (k : StoreKey) (p : Payload) :
  (forall k', outcome k' ≠ Some BaseExc) ->
  subscriptions t !! k = Some p -> marks alive outcome k p = false ->
  subscriptions (fr_ticker (ticker_callback alive outcome t)) !! k = Some (restored p).
Proof.
  intros Hb Hk Hm. rewrite ticker_callback_spec by done. simpl.
  rewrite fold_ticker_remove_subs. case_decide as Hin.
  - exfalso. unfold marked_keys in Hin.
    apply (in_concat_single (fun kp => marks alive outcome kp.1 kp.2) fst) in Hin
      as ([k' p'] & Hin & Hmk & Hkk). simpl in *. subst k'.
    apply list_elem_of_In, elem_of_map_to_list in Hin. congruence.
  - simpl. apply restore_all_in; [apply NoDup_fst_map_to_list|].
    apply list_elem_of_In. by apply elem_of_map_to_list.
Qed.

(** [C5] Fault isolation.  When, in a firing, the callable of subscription
    [k] is reached and raises an exception that is an [Exception] other than
    ObjectDoesNotExist (and no subscriber raises a bare BaseException), the
    firing does not propagate it, logs a traceback, keeps [k] subscribed with
    its args and its re-stored callback and object, still invokes every other
    subscriber whose callable is reachable, and the next firing invokes [k]
    again. *)
Theorem ticker_fire_fault_isolation (alive : Entity -> bool) (outcome : Outcome) (t : Ticker)
    (k : StoreKey) (p : Payload) (e : PyExc) :
  (forall k', outcome k' ≠ Some BaseExc) ->
  subscriptions t !! k = Some p -> will_invoke alive p = true ->
  outcome k = Some e -> is_Exception e = true -> e ≠ ObjectDoesNotExist ->
  fr_exc (ticker_callback alive outcome t) = None /\
  In (LogTrace "") (fr_log (ticker_callback alive outcome t)) /\
  subscriptions (fr_ticker (ticker_callback alive outcome t)) !! k = Some (restored p) /\
  (restored p).1 = p.1 /\ will_invoke alive (restored p) = true /\
  (forall k' p', subscriptions t !! k' = Some p' -> will_invoke alive p' = true ->
     In k' (fr_invoked (ticker_callback alive outcome t))) /\
  In k (fr_invoked (ticker_callback alive outcome (fr_ticker (ticker_callback alive outcome t)))).
Proof.
  intros Hb Hk Hw He Hexc Hne.
  assert (Htb : try_body alive (outcome k) (cb_of p) (obj_of p) = TInvoked (Some e)).
  { rewrite He. by apply try_body_invoked. }
  assert (Hm : marks alive outcome k p = false).
  { unfold marks. rewrite Htb. simpl. by destruct e. }
  assert (Hkeep := ticker_callback_keeps alive outcome t k p Hb Hk Hm).
  split; [by rewrite ticker_callback_spec|].
  split.
  { rewrite ticker_callback_spec by done. simpl. unfold logged.
    apply in_concat. exists [LogTrace ""]. split; [|by left].
    apply in_map_iff. exists (k, p). split.
    - simpl. unfold fire_log. rewrite Htb. simpl. rewrite Hexc. by destruct e.
    - apply list_elem_of_In. by apply elem_of_map_to_list. }
  split; [exact Hkeep|].
  split; [done|].
  split; [by rewrite will_invoke_restored|].
  split.
  - intros k' p' Hk' Hw'. by apply (ticker_callback_invokes _ _ _ _ p').
  - apply (ticker_callback_invokes _ _ _ _ (restored p)); [done|exact Hkeep|].
    by rewrite will_invoke_restored.
Qed.

(** Every subscription sits in the ticker of its own interval. *)
Definition pool_wf (p : Pool) : Prop :=
  forall J t k, p !! J = Some t -> is_Some (subscriptions t !! k) -> sk_interval k = J.

(** [C6] Self-heal on a dead target.  A subscription addressed by method
    name whose object no longer exists in the database ([obj.pk] unset) is,
    in its iteration of the firing, neither invoked nor logged and is put in
    [to_remove]; after the firing it is gone from its ticker, and [all()]
    (over every interval, or for its interval) no longer lists it. *)
Theorem fire_self_heal (alive : Entity -> bool) (outcome : Outcome) (h : HState)
    (k : StoreKey) (t : Ticker) (pl : Payload) (e : Entity) :
  pool_wf (tickers h) -> (forall k', outcome k' ≠ Some BaseExc) ->
  tickers h !! sk_interval k = Some t -> subscriptions t !! k = Some pl ->
  py_callable (cb_of pl) = false -> obj_of pl = VObj e -> alive e = false ->
  (forall st, fire_one alive outcome st k pl =
     (mkFire (<[k := restored pl]> (f_subs st)) (f_to_remove st ++ [k]) (f_invoked st) (f_log st), None)) /\
  fr_exc (pool_fire alive outcome (tickers h) (sk_interval k)).2 = None /\
  (exists m, handler_all (set_tickers h (pool_fire alive outcome (tickers h) (sk_interval k)).1) None = Some m /\
     forall J s, m !! J = Some s -> s !! k = None) /\
  (forall m s, handler_all (set_tickers h (pool_fire alive outcome (tickers h) (sk_interval k)).1)
                 (Some (sk_interval k)) = Some m ->
     m !! sk_interval k = Some s -> s !! k = None).
Proof.
  intros Hwf Hb Ht Hk Hcb Hobj Hal.
  assert (Htb : forall r, try_body alive r (cb_of pl) (obj_of pl) = TMark).
  { intros r. unfold try_body. rewrite Hcb, Hobj. simpl. by rewrite Hal. }
  assert (Hgone : subscriptions (fr_ticker (ticker_callback alive outcome t)) !! k = None).
  { rewrite ticker_callback_spec by done. simpl. rewrite fold_ticker_remove_subs.
    rewrite decide_True; [done|]. unfold marked_keys.
    apply (in_concat_single (fun kp => marks alive outcome kp.1 kp.2) fst).
    exists (k, pl). split; [apply list_elem_of_In; by apply elem_of_map_to_list|].
    simpl. unfold marks. by rewrite Htb. }
  split.
  { intros st. rewrite fire_one_spec by done.
    unfold marks, will_invoke, fire_log. rewrite !Htb. simpl. by rewrite !app_nil_r. }
  unfold pool_fire. rewrite Ht. simpl.
  split; [by rewrite ticker_callback_spec|].
  split.
  - eexists. split; [reflexivity|]. intros J s HJ.
    rewrite lookup_fmap in HJ. rewrite lookup_insert in HJ. case_decide as HI.
    + simpl in HJ. injection HJ as <-. exact Hgone.
    + destruct (tickers h !! J) as [tJ|] eqn:HtJ; simpl in HJ; [|done].
      injection HJ as <-. destruct (subscriptions tJ !! k) eqn:Hs; [|done].
      exfalso. apply HI. apply (Hwf J tJ k HtJ). rewrite Hs. by eexists.
  - intros m s. simpl. rewrite lookup_insert_eq. simpl.
    intros [= <-]. rewrite lookup_singleton_eq. intros [= <-]. exact Hgone.
Qed.

(** A ticker at 15 with [obj1.at_tick] and [obj2.at_tick] subscribed. *)
Definition demo_payload (o : Entity) : Payload :=
  ([], <["_callback" := VStr "at_tick"]> {["_obj" := VObj o]}).
Definition demo_ticker : Ticker :=
  mkTicker 15 {[demo_key := demo_payload 1%nat; demo_key2 := demo_payload 2%nat]} true VNone.

(** obj1's hook raises a generic error; obj2's hook returns. *)
Definition demo_outcome (k : StoreKey) : option PyExc :=
  if bool_decide (k = demo_key) then Some GenericError else None.

Lemma ticker_fire_fault_isolation_witness :
  let r := ticker_callback (fun _ => true) demo_outcome demo_ticker in
  fr_exc r = None /\
  In (LogTrace "") (fr_log r) /\
  subscriptions (fr_ticker r) !! demo_key = Some (restored (demo_payload 1%nat)) /\
  (restored (demo_payload 1%nat)).1 = (demo_payload 1%nat).1 /\
  will_invoke (fun _ => true) (restored (demo_payload 1%nat)) = true /\
  (forall k' p', subscriptions demo_ticker !! k' = Some p' -> will_invoke (fun _ => true) p' = true ->
     In k' (fr_invoked r)) /\
  In demo_key (fr_invoked (ticker_callback (fun _ => true) demo_outcome (fr_ticker r))).
Proof.
  apply (ticker_fire_fault_isolation (fun _ => true) demo_outcome demo_ticker demo_key
           (demo_payload 1%nat) GenericError).
  - intros k'. unfold demo_outcome. case_bool_decide; discriminate.
  - vm_compute. reflexivity.
  - vm_compute. reflexivity.
  - unfold demo_outcome. rewrite bool_decide_true; reflexivity.
  - reflexivity.
  - discriminate.
Defined.

(** obj2 has been deleted; the pool holds [demo_ticker] only. *)
Definition demo_alive (e : Entity) : bool := Nat.eqb e 1.
Definition demo_pool_state : HState := mkH ∅ None {[15%Z := demo_ticker]} [].

Lemma fire_self_heal_witness :
  (forall st, fire_one demo_alive demo_outcome st demo_key2 (demo_payload 2%nat) =
     (mkFire (<[demo_key2 := restored (demo_payload 2%nat)]> (f_subs st)) (f_to_remove st ++ [demo_key2])
             (f_invoked st) (f_log st), None)) /\
  fr_exc (pool_fire demo_alive demo_outcome (tickers demo_pool_state) (sk_interval demo_key2)).2 = None /\
  (exists m, handler_all (set_tickers demo_pool_state
                (pool_fire demo_alive demo_outcome (tickers demo_pool_state) (sk_interval demo_key2)).1) None = Some m /\
     forall J s, m !! J = Some s -> s !! demo_key2 = None) /\
  (forall m s, handler_all (set_tickers demo_pool_state
                 (pool_fire demo_alive demo_outcome (tickers demo_pool_state) (sk_interval demo_key2)).1)
                 (Some (sk_interval demo_key2)) = Some m ->
     m !! sk_interval demo_key2 = Some s -> s !! demo_key2 = None).
Proof.
  apply (fire_self_heal demo_alive demo_outcome demo_pool_state demo_key2 demo_ticker
           (demo_payload 2%nat) 2%nat).
  - intros J t k HJ Hs. unfold demo_pool_state in HJ. simpl in HJ.
    rewrite lookup_singleton in HJ. case_decide as HJ15; [|done].
    subst J. injection HJ as <-. simpl in Hs.
    rewrite lookup_insert in Hs. case_decide as Hk1; [by subst|].
    rewrite lookup_singleton in Hs. case_decide as Hk2; [by subst|].
    by destruct Hs.
  - intros k'. unfold demo_outcome. case_bool_decide; discriminate.
  - reflexivity.
  - vm_compute. reflexivity.
  - reflexivity.
  - vm_compute. reflexivity.
  - reflexivity.
Defined.


(** No value of the table is a bare key. *)
Definition ekey_free (tab : gmap StoreKey Entry) : Prop :=
  forall k e, tab !! k = Some e -> is_ekey e = false.

(** [validate] raises only when it starts the task of a ticker with a
    negative interval. *)
Lemma validate_ok (t : Ticker) (sd : PyVal) :
  (0 <= t_interval t)%Z -> (validate t sd).2 = None.
Proof.
  intros H. unfold validate, task_start. destruct (task_running t); repeat case_decide; try done.
  destruct (Z.ltb_spec (t_interval t) 0); [lia|done].
Qed.

(** [TickerPool.add] at a positive interval raises nothing when the ticker
    there, if any, has a non-negative interval. *)
Lemma pool_add_pos_ok (p : Pool) (k : StoreKey) (a : args) (kw : kwargs) :
  (0 < sk_interval k)%Z -> (forall t, p !! sk_interval k = Some t -> (0 <= t_interval t)%Z) ->
  snd (pool_add p k a kw) = None.
Proof.
  intros Hpos Ht. unfold pool_add. rewrite truthy_int.
  destruct (Z.eqb_spec (sk_interval k) 0); [lia|]. simpl.
  set (t := match p !! sk_interval k with Some t => t | None => _ end).
  assert (Hti : (0 <= t_interval t)%Z).
  { unfold t. destruct (p !! sk_interval k) eqn:He; [by apply Ht|simpl; lia]. }
  unfold ticker_add, kw_pop. simpl.
  pose proof (validate_ok (set_subscriptions t (<[k := (a, delete "_start_delay" kw)]> (subscriptions t)))
                (kw_get "_start_delay" VNone kw) Hti) as Hv.
  destruct (validate _ _) as [t' r]. simpl in *. by subst r.
Qed.

Lemma pool_intervals_ok_pos (p : Pool) (k : StoreKey) :
  pool_intervals_ok p -> (0 < sk_interval k)%Z ->
  forall t, p !! sk_interval k = Some t -> (0 <= t_interval t)%Z.
Proof. intros Hp Hk t Ht. rewrite (Hp _ _ Ht). lia. Qed.

Section HandlerAdd.
Variables (nct : Ticker -> PyVal) (h : HState) (interval : Z) (cb : Callback)
  (idstring : string) (persistent : bool) (a : args) (kw : kwargs)
  (obj : option Entity) (path : option string) (callfunc : PyVal).
Hypothesis Hcb : get_callback cb = inl (obj, path, callfunc).

Let k := store_key obj path interval callfunc idstring persistent.
Let T1 := <[k := EPayload a kw]> (ticker_storage h).
Let r := handler_add nct h interval cb idstring persistent a kw.

Lemma handler_add_eq :
  r = let '(h2, r) := save nct (set_storage h T1) in
      match r with
      | Some e => (h2, Some e)
      | None =>
          let kw2 := match ticker_storage h2 !! k with Some (EPayload _ kw2) => kw2 | _ => kw end in
          let kw3 := <["_callback" := callfunc]> (<["_obj" := obj_val obj]> kw2) in
          let h3 := set_storage h2 (<[k := EPayload a kw3]> (ticker_storage h2)) in
          let '(p, r') := pool_add (tickers h3) k a kw3 in
          (set_tickers h3 p, r')
      end.
Proof. unfold r, handler_add. by rewrite Hcb. Qed.

Lemma handler_add_at_key :
  exists kw', ticker_storage r.1 !! k = Some (EPayload a kw') /\
              strip_reserved kw' = strip_reserved kw.
Proof.
  rewrite handler_add_eq.
  destruct (save_storage_equiv nct (set_storage h T1) k (EPayload a kw)) as (e' & He' & Heq).
  { unfold T1. simpl. by rewrite lookup_insert_eq. }
  destruct (save nct (set_storage h T1)) as [h2 [e|]]; simpl in *.
  - destruct e' as [a' kw'|]; [|done]. destruct Heq as [<- Hs]. by exists kw'.
  - rewrite He'. destruct e' as [a' kw'|]; [|done]. destruct Heq as [<- Hs].
    destruct (pool_add _ _ _ _) as [p l]. simpl. rewrite lookup_insert_eq.
    eexists. split; [reflexivity|]. by rewrite strip_insert_callback, strip_insert_obj.
Qed.

Lemma handler_add_dom (k' : StoreKey) :
  is_Some (ticker_storage r.1 !! k') <-> is_Some (T1 !! k').
Proof.
  rewrite handler_add_eq.
  pose proof (save_storage_dom nct (set_storage h T1) k') as Hd. simpl in Hd.
  pose proof (save_storage_dom nct (set_storage h T1) k) as Hdk. simpl in Hdk.
  destruct (save nct (set_storage h T1)) as [h2 [e|]]; simpl in *; [done|].
  destruct (pool_add _ _ _ _) as [p l]. simpl. rewrite lookup_insert.
  case_decide as Hk; [subst k'|done].
  split; intros _; [|by eexists]. unfold T1. rewrite lookup_insert_eq. by eexists.
Qed.

Lemma handler_add_ekey (k' : StoreKey) (e0 : Entry) :
  T1 !! k' = Some e0 ->
  exists e, ticker_storage r.1 !! k' = Some e /\ is_ekey e = is_ekey e0.
Proof.
  intros H0. rewrite handler_add_eq.
  destruct (save_storage_equiv nct (set_storage h T1) k' e0 H0) as (e' & He' & Heq).
  destruct (save nct (set_storage h T1)) as [h2 [e|]]; simpl in *.
  - exists e'. split; [done|]. symmetry. by apply entry_equiv_ekey.
  - destruct (pool_add _ _ _ _) as [p l]. simpl. rewrite lookup_insert.
    case_decide as Hk.
    + subst k'. eexists. split; [reflexivity|]. unfold T1 in H0.
      rewrite lookup_insert_eq in H0. by injection H0 as <-.
    + exists e'. split; [done|]. symmetry. by apply entry_equiv_ekey.
Qed.

(** Whether [add] gets past [save] depends only on the table: then the pool
    receives the key, with the stored kwargs, and its exception is the
    result; otherwise [save] raised and the pool is untouched. *)
Lemma handler_add_tickers :
  (ekey_free T1 -> exists kw3, tickers r.1 = fst (pool_add (tickers h) k a kw3) /\
                               r.2 = snd (pool_add (tickers h) k a kw3)) /\
  (~ ekey_free T1 -> tickers r.1 = tickers h /\ r.2 <> None).
Proof.
  rewrite handler_add_eq. pose proof (save_tickers nct (set_storage h T1)) as Ht. simpl in Ht.
  pose proof (save_ok_iff nct (set_storage h T1)) as Hok. simpl in Hok.
  destruct (save nct (set_storage h T1)) as [h2 [e|]]; simpl in *.
  - split.
    + intros Hfree. exfalso. assert (Habs : Some e = None) by (apply Hok; exact Hfree).
      discriminate Habs.
    + intros _. split; [done|discriminate].
  - split.
    + intros _. exists (<["_callback" := callfunc]>
        (<["_obj" := obj_val obj]> match ticker_storage h2 !! k with
                                     | Some (EPayload _ kw2) => kw2 | _ => kw end)).
      rewrite Ht. by destruct (pool_add _ _ _ _).
    + intros Hn. exfalso. apply Hn. intros k' e'. by apply Hok.
Qed.

(** At a positive interval, on a pool built by the handler, [add] raises
    exactly when the table holds a bare key. *)
Lemma handler_add_ok :
  (0 < interval)%Z -> pool_intervals_ok (tickers h) -> (r.2 = None <-> ekey_free T1).
Proof.
  intros Hpos Hwf. destruct handler_add_tickers as [H1 H2]. split.
  - intros Hr. destruct (decide (ekey_free T1)) as [|Hn]; [done|].
    exfalso. by apply (proj2 (H2 Hn)).
  - intros Hfree. destruct (H1 Hfree) as (kw3 & _ & ->).
    apply pool_add_pos_ok; [unfold k; simpl; lia|].
    apply pool_intervals_ok_pos; [done|unfold k; simpl; lia].
Qed.
End HandlerAdd.

Lemma pool_add_nonzero (p : Pool) (k : StoreKey) (a : args) (kw : kwargs) :
  sk_interval k ≠ 0%Z ->
  fst (pool_add p k a kw) =
    <[sk_interval k := (ticker_add (default (new_ticker (sk_interval k)) (p !! sk_interval k)) k a kw).1]> p.
Proof.
  intros Hk. unfold pool_add. rewrite truthy_int.
  destruct (Z.eqb_spec (sk_interval k) 0); [done|]. simpl.
  destruct (ticker_add _ k a kw) eqn:E. simpl. by destruct (p !! sk_interval k).
Qed.

Lemma all_count_tickers (h h' : HState) : tickers h = tickers h' -> all_count h = all_count h'.
Proof. intros Ht. unfold all_count, handler_all. by rewrite Ht. Qed.

(** Replacing a ticker by one with as many subscriptions keeps the count of [all()]. *)
Lemma all_count_replace (h : HState) (I : Z) (t t' : Ticker) :
  tickers h !! I = Some t -> size (subscriptions t') = size (subscriptions t) ->
  all_count (set_tickers h (<[I := t']> (tickers h))) = all_count h.
Proof.
  intros Ht Hsz. unfold all_count, handler_all. simpl.
  set (f := fun (_ : Z) (subs : gmap StoreKey Payload) (acc : nat) => size subs + acc).
  set (m0 := delete I (tickers h)).
  assert (Hm0 : (subscriptions <$> m0) !! I = None).
  { unfold m0. by rewrite lookup_fmap, lookup_delete_eq. }
  assert (Hcomm : forall (x : Ticker) j1 j2 z1 z2 y, j1 ≠ j2 ->
            <[I:=subscriptions x]> (subscriptions <$> m0) !! j1 = Some z1 ->
            <[I:=subscriptions x]> (subscriptions <$> m0) !! j2 = Some z2 ->
            f j1 z1 (f j2 z2 y) = f j2 z2 (f j1 z1 y)).
  { intros. unfold f. lia. }
  transitivity (map_fold f 0 (subscriptions <$> <[I:=t']> m0)).
  { unfold m0. by rewrite insert_delete_eq. }
  transitivity (map_fold f 0 (subscriptions <$> <[I:=t]> m0)).
  2: { unfold m0. by rewrite insert_delete_id. }
  rewrite !fmap_insert.
  rewrite (map_fold_insert_L f 0 I (subscriptions t') _ (Hcomm t') Hm0).
  rewrite (map_fold_insert_L f 0 I (subscriptions t) _ (Hcomm t) Hm0).
  unfold f. by rewrite Hsz.
Qed.

(** [C7] [add] is an upsert by identity: a second [add] with the same
    callback, interval, idstring and persistence but new args/kwargs keeps the
    set of keys of [ticker_storage], leaves one entry under the store key,
    holding the second call's args and (up to the reserved keys [_obj],
    [_callback], [_start_delay]) its kwargs, leaves the pool's ticker at that
    interval subscribed under the same key with the second call's args when
    the call succeeds, and does not change the number of subscriptions
    listed by [all()]. *)
Theorem add_is_idempotent_upsert (nct : Ticker -> PyVal) (h : HState) (interval : Z)
    (cb : Callback) (idstring : string) (persistent : bool) (a1 a2 : args) (kw1 kw2 : kwargs)
    (obj : option Entity) (path : option string) (callfunc : PyVal) :
  get_callback cb = inl (obj, path, callfunc) ->
  let k := store_key obj path interval callfunc idstring persistent in
  let h1 := (handler_add nct h interval cb idstring persistent a1 kw1).1 in
  let r2 := handler_add nct h1 interval cb idstring persistent a2 kw2 in
  (forall k', is_Some (ticker_storage r2.1 !! k') <-> is_Some (ticker_storage h1 !! k')) /\
  (exists kw', ticker_storage r2.1 !! k = Some (EPayload a2 kw') /\
               strip_reserved kw' = strip_reserved kw2) /\
  (r2.2 = None -> sk_interval k ≠ 0%Z ->
     exists t kw'', tickers r2.1 !! sk_interval k = Some t /\ subscriptions t !! k = Some (a2, kw'')) /\
  all_count r2.1 = all_count h1.
Proof.
  intros Hcb k h1 r2.
  assert (Hk1 : exists kw', ticker_storage h1 !! k = Some (EPayload a1 kw') /\
                            strip_reserved kw' = strip_reserved kw1).
  { apply handler_add_at_key, Hcb. }
  destruct Hk1 as (kw1' & Hk1 & _).
  split; [|split; [|split]].
  - intros k'. unfold r2. rewrite (handler_add_dom nct h1 interval cb idstring persistent a2 kw2 obj path callfunc Hcb k').
    rewrite lookup_insert. case_decide as Hk; [|done]. subst k'. fold k. rewrite Hk1.
    split; intros _; by eexists.
  - apply handler_add_at_key, Hcb.
  - intros Hok HI.
    destruct (handler_add_tickers nct h1 interval cb idstring persistent a2 kw2
                obj path callfunc Hcb) as [Hy Hn].
    destruct (decide (ekey_free (<[store_key obj path interval callfunc idstring persistent:=
                                    EPayload a2 kw2]> (ticker_storage h1)))) as [Hfree|Hnf].
    2: { exfalso. by apply (proj2 (Hn Hnf)). }
    destruct (Hy Hfree) as [kw3 [Ht _]].
    fold k in Ht. fold r2 in Ht. rewrite Ht, pool_add_nonzero, lookup_insert_eq by done.
    eexists _, _. split; [reflexivity|]. by rewrite ticker_add_subscriptions, lookup_insert_eq.
  - destruct (handler_add_tickers nct h1 interval cb idstring persistent a2 kw2
                obj path callfunc Hcb) as [Hy2 Hn2].
    fold k r2 in Hy2, Hn2.
    destruct (decide (ekey_free (<[k:=EPayload a2 kw2]> (ticker_storage h1)))) as [Hfree|Hnf].
    2: { apply all_count_tickers. apply (proj1 (Hn2 Hnf)). }
    (* the second call got past [save], so did the first: no bare key anywhere *)
    assert (Hfree1 : ekey_free (<[k:=EPayload a1 kw1]> (ticker_storage h))).
    { intros k' e0 He0.
      destruct (handler_add_ekey nct h interval cb idstring persistent a1 kw1 obj path callfunc Hcb k' e0 He0) as (e & He & Hee).
      fold k h1 in He. rewrite <- Hee.
      destruct (decide (k' = k)) as [->|Hne].
      - rewrite Hk1 in He. by injection He as <-.
      - apply (Hfree k'). by rewrite lookup_insert_ne by congruence. }
    destruct (proj1 (handler_add_tickers nct h interval cb idstring persistent a1 kw1
                       obj path callfunc Hcb) Hfree1) as [kw3 [Ht1 _]]. fold k h1 in Ht1.
    destruct (Hy2 Hfree) as [kw3' [Ht2 _]].
    destruct (Z.eq_dec (sk_interval k) 0%Z) as [H0|H0].
    { apply all_count_tickers. rewrite Ht2. by rewrite pool_add_zero. }
    destruct (pool_add_has_new (tickers h) k a1 kw3 H0) as (t1 & Ht1k & Hs1).
    rewrite <- Ht1 in Ht1k.
    rewrite (all_count_tickers r2.1 (set_tickers h1 (<[sk_interval k := (ticker_add t1 k a2 kw3').1]> (tickers h1)))).
    + apply (all_count_replace h1 (sk_interval k) t1). { done. }
      rewrite ticker_add_subscriptions. by apply map_size_insert_Some.
    + rewrite Ht2, pool_add_nonzero, Ht1k by done. done.
Qed.

Lemma add_is_idempotent_upsert_witness :
  let k := store_key (Some 1%nat) None 15 (VStr "at_tick") "" true in
  let h1 := (handler_add demo_next_call demo_state 15 (CbMethod 1%nat "at_tick") "" true [] ∅).1 in
  let r2 := handler_add demo_next_call h1 15 (CbMethod 1%nat "at_tick") "" true
              [VInt 5] {["x" := VInt 1]} in
  (forall k', is_Some (ticker_storage r2.1 !! k') <-> is_Some (ticker_storage h1 !! k')) /\
  (exists kw', ticker_storage r2.1 !! k = Some (EPayload [VInt 5] kw') /\
               strip_reserved kw' = strip_reserved {["x" := VInt 1]}) /\
  (r2.2 = None -> sk_interval k ≠ 0%Z ->
     exists t kw'', tickers r2.1 !! sk_interval k = Some t /\ subscriptions t !! k = Some ([VInt 5], kw'')) /\
  all_count r2.1 = all_count h1.
Proof.
  apply (add_is_idempotent_upsert demo_next_call demo_state 15 (CbMethod 1%nat "at_tick") "" true
           [] [VInt 5] ∅ {["x" := VInt 1]} (Some 1%nat) None (VStr "at_tick")).
  reflexivity.
Defined.


Lemma restore_entry_persistent (vfm : string -> string -> option PyVal) (r : bool) (k : StoreKey) (e : Entry) :
  sk_persistent k = true -> restore_entry vfm r k e = restore_entry vfm true k e.
Proof. intros Hp. destruct e; simpl; [by rewrite Hp, !andb_false_l|done]. Qed.

Lemma restore_entry_cold_skip (vfm : string -> string -> option PyVal) (k : StoreKey) (e : Entry)
    (a : args) (kw : kwargs) :
  restore_entry vfm true k e = ROk a kw -> sk_persistent k = false -> restore_entry vfm false k e = RSkip.
Proof. intros He Hp. destruct e; simpl in *; [by rewrite Hp|done]. Qed.

(** The items of a two-entry table, in one of the two orders. *)
Lemma map_to_list_pair {A} (k1 k2 : StoreKey) (x1 x2 : A) :
  k1 ≠ k2 ->
  map_to_list (<[k1 := x1]> ({[k2 := x2]} : gmap StoreKey A)) = [(k1, x1); (k2, x2)] \/
  map_to_list (<[k1 := x1]> ({[k2 := x2]} : gmap StoreKey A)) = [(k2, x2); (k1, x1)].
Proof.
  intros Hne. apply Permutation_length_2_inv.
  rewrite map_to_list_insert, map_to_list_singleton; [done|].
  by rewrite lookup_singleton_ne.
Qed.

(** [C8] (code bug) [restore] is not guarded against an entry it cannot
    hand to the pool: [self.ticker_pool.add] runs outside the [try], so when
    the first item of the persisted table (in iteration order) is a
    restorable entry at interval 0 -- which [add(0, ...)] persists before the
    pool raises -- [TickerPool.add] raises KeyError and [restore] ends
    there, with the rebuilt table holding that entry alone and the pool
    untouched: no other entry, durable or not, is restored, whatever the
    value of [server_reload]. *)
Theorem restore_zero_interval_aborts (vfm : string -> string -> option PyVal) (h : HState)
    (server_reload : bool) (tab : gmap StoreKey Entry) (k : StoreKey) (e : Entry)
    (rest : list (StoreKey * Entry)) (a : args) (kw : kwargs) :
  stored h = Some tab -> map_to_list tab = (k, e) :: rest ->
  restore_entry vfm server_reload k e = ROk a kw -> sk_interval k = 0%Z ->
  restore vfm h server_reload = (set_storage h {[k := EPayload a kw]}, Some KeyError).
Proof.
  intros Hst Hl He Hk. unfold restore. rewrite Hst, Hl. simpl. rewrite He.
  unfold pool_add. rewrite Hk. simpl. rewrite insert_empty. by destruct h.
Qed.

(** A persisted table with [obj1.at_tick] once persistent and once not; no
    module import is needed. *)
Definition demo_key_nd : StoreKey := (Some 1%nat, Some "at_tick", None, 15%Z, "", false).
Definition demo_restore_state : HState :=
  mkH ∅ (Some (<[demo_key := EPayload [] ∅]> {[demo_key_nd := EPayload [VInt 3] ∅]})) ∅ [].
Definition demo_vfm (m v : string) : option PyVal := None.
Definition demo_restored_kw : kwargs := <["_obj" := VObj 1%nat]> (<["_callback" := VStr "at_tick"]> ∅).

(** [obj1.at_tick] persisted once at interval 0 (durable) and once at 15
    (not durable); the interval-0 entry comes first. *)
Definition demo_key_zero : StoreKey := (Some 1%nat, Some "at_tick", None, 0%Z, "", true).
Definition demo_zero_tab : gmap StoreKey Entry :=
  <[demo_key_zero := EPayload [] ∅]> {[demo_key_nd := EPayload [VInt 3] ∅]}.
Definition demo_zero_state : HState := mkH ∅ (Some demo_zero_tab) ∅ [].

Lemma restore_zero_interval_aborts_witness :
  restore demo_vfm demo_zero_state true =
    (set_storage demo_zero_state {[demo_key_zero := EPayload [] demo_restored_kw]}, Some KeyError).
Proof.
  apply (restore_zero_interval_aborts demo_vfm demo_zero_state true demo_zero_tab demo_key_zero
           (EPayload [] ∅) [(demo_key_nd, EPayload [VInt 3] ∅)] [] demo_restored_kw).
  - reflexivity.
  - vm_compute. reflexivity.
  - vm_compute. reflexivity.
  - reflexivity.
Defined.


Lemma save_stored_ok (nct : Ticker -> PyVal) (h : HState) :
  (save nct h).2 = None -> ticker_storage h ≠ ∅ ->
  stored (save nct h).1 = Some (ticker_storage (save nct h).1).
Proof.
  intros Hok Hne. unfold save in Hok |- *. rewrite decide_False in Hok |- * by done.
  destruct (save_loop _ _ _) as [tab [e|]]; done.
Qed.

Lemma ekey_free_insert_payload (tab : gmap StoreKey Entry) (k : StoreKey) (a : args) (kw : kwargs) :
  ekey_free tab -> ekey_free (<[k := EPayload a kw]> tab).
Proof. intros Hf k' e. rewrite lookup_insert. case_decide; [by intros [= <-]|]. apply Hf. Qed.

(** [TickerPool.add] at a negative interval, where the ticker (if any) was
    built for that interval and is stopped: the subscription is recorded in
    a ticker bound in the pool, [task.start] raises ValueError and the task
    stays stopped. *)
Lemma pool_add_neg (p : Pool) (k : StoreKey) (a : args) (kw : kwargs) :
  (sk_interval k < 0)%Z ->
  (forall t, p !! sk_interval k = Some t -> t_interval t = sk_interval k /\ task_running t = false) ->
  snd (pool_add p k a kw) = Some ValueError /\
  exists t, fst (pool_add p k a kw) !! sk_interval k = Some t /\
            is_Some (subscriptions t !! k) /\ task_running t = false.
Proof.
  intros Hneg Hp. unfold pool_add. rewrite truthy_int.
  destruct (Z.eqb_spec (sk_interval k) 0); [lia|]. simpl.
  set (t := match p !! sk_interval k with Some t => t | None => new_ticker (sk_interval k) end).
  assert (Ht : t_interval t = sk_interval k /\ task_running t = false).
  { unfold t. destruct (p !! sk_interval k) eqn:He; [by apply Hp|done]. }
  destruct Ht as [Hti Htr].
  unfold ticker_add, kw_pop, validate, task_start, set_subscriptions. simpl. rewrite Htr.
  rewrite decide_False by apply insert_non_empty.
  rewrite Hti. destruct (Z.ltb_spec (sk_interval k) 0); [|lia]. simpl.
  split; [done|]. eexists. split; [by rewrite lookup_insert_eq|]. simpl.
  split; [rewrite lookup_insert_eq; by eexists|done].
Qed.

Section HandlerAddPersist.
Variables (nct : Ticker -> PyVal) (h : HState) (interval : Z) (cb : Callback)
  (idstring : string) (persistent : bool) (a : args) (kw : kwargs)
  (obj : option Entity) (path : option string) (callfunc : PyVal).
Hypothesis Hcb : get_callback cb = inl (obj, path, callfunc).

Let k := store_key obj path interval callfunc idstring persistent.
Let T1 := <[k := EPayload a kw]> (ticker_storage h).
Let r := handler_add nct h interval cb idstring persistent a kw.

(** Once [save] succeeds, the persisted record holds the new key, whatever
    the pool does afterwards. *)
Lemma handler_add_stored :
  ekey_free T1 -> exists tab, stored r.1 = Some tab /\ is_Some (tab !! k).
Proof.
  intros Hfree. unfold r.
  rewrite (handler_add_eq nct h interval cb idstring persistent a kw obj path callfunc Hcb). fold k T1.
  pose proof (save_stored_ok nct (set_storage h T1)) as Hs.
  pose proof (save_storage_dom nct (set_storage h T1) k) as Hd.
  pose proof (proj2 (save_ok_iff nct (set_storage h T1)) Hfree) as Hok. simpl in Hs, Hd, Hok.
  destruct (save nct (set_storage h T1)) as [h2 [e|]]; simpl in *; [discriminate Hok|].
  destruct (pool_add _ _ _ _) as [p r']. simpl.
  exists (ticker_storage h2). split.
  - apply Hs; [done|]. apply insert_non_empty.
  - apply Hd. unfold T1. rewrite lookup_insert_eq. by eexists.
Qed.

(** [add] never logs. *)
Lemma handler_add_log : log r.1 = log h.
Proof.
  unfold r. rewrite (handler_add_eq nct h interval cb idstring persistent a kw obj path callfunc Hcb).
  pose proof (save_log nct (set_storage h T1)) as Hl. simpl in Hl. fold k T1.
  destruct (save nct (set_storage h T1)) as [h2 [e|]]; simpl in *; [done|].
  by destruct (pool_add _ _ _ _).
Qed.

(** At interval 0 [add] gets past [save], then [TickerPool.add] raises
    KeyError with the pool as it was. *)
Lemma handler_add_zero :
  interval = 0%Z -> ekey_free T1 -> r.2 = Some KeyError /\ tickers r.1 = tickers h.
Proof.
  intros H0 Hfree.
  destruct (proj1 (handler_add_tickers nct h interval cb idstring persistent a kw obj path callfunc Hcb) Hfree)
    as (kw3 & Ht & Hr). fold k r in Ht, Hr. rewrite Ht, Hr.
  assert (Hk0 : sk_interval k = 0%Z) by (unfold k; simpl; done).
  unfold pool_add. rewrite Hk0. done.
Qed.

(** At a negative interval [add] subscribes the key in a stopped ticker,
    whose [task.start] raises ValueError. *)
Lemma handler_add_neg :
  (interval < 0)%Z -> ekey_free T1 ->
  (forall t, tickers h !! interval = Some t -> t_interval t = interval /\ task_running t = false) ->
  r.2 = Some ValueError /\
  exists t, tickers r.1 !! interval = Some t /\ is_Some (subscriptions t !! k) /\ task_running t = false.
Proof.
  intros Hneg Hfree Hp.
  destruct (proj1 (handler_add_tickers nct h interval cb idstring persistent a kw obj path callfunc Hcb) Hfree)
    as (kw3 & Ht & Hr). fold k r in Ht, Hr. rewrite Ht, Hr.
  assert (Hk : sk_interval k = interval) by (unfold k; simpl; done).
  rewrite <- Hk in Hneg, Hp |- *. by apply pool_add_neg.
Qed.
End HandlerAddPersist.

(** [C9] (code bug) [add] is not a logged no-op on a configuration error.
    A non-callable callback makes [_get_callback] raise TypeError to the
    caller.  For a callable callback and an interval [<= 0] (on a table
    without bare keys, with any ticker already at that interval built for it
    and stopped), the entry is recorded under its store key and persisted,
    nothing is logged, and the pool raises to the caller: at interval 0
    [_ERROR_ADD_TICKER.format(store_key=...)] raises KeyError (the template
    names [{storekey}]) with the pool unchanged; at a negative interval the
    key is subscribed in a stopped ticker and [task.start] raises
    ValueError.  A callable that is neither a method nor a function is not
    rejected: at a positive interval it is recorded and raises nothing. *)
Theorem add_invalid_interval_raises (nct : Ticker -> PyVal) (h : HState) (idstring : string)
    (persistent : bool) (a : args) (kw : kwargs) :
  (forall interval,
     handler_add nct h interval CbNotCallable idstring persistent a kw = (h, Some TypeError)) /\
  (forall interval cb obj path callfunc, get_callback cb = inl (obj, path, callfunc) ->
     ekey_free (ticker_storage h) -> (interval <= 0)%Z ->
     (forall t, tickers h !! interval = Some t -> t_interval t = interval /\ task_running t = false) ->
     let k := store_key obj path interval callfunc idstring persistent in
     let r := handler_add nct h interval cb idstring persistent a kw in
     (exists kw', ticker_storage r.1 !! k = Some (EPayload a kw')) /\
     (exists tab, stored r.1 = Some tab /\ is_Some (tab !! k)) /\
     log r.1 = log h /\
     (interval = 0%Z -> r.2 = Some KeyError /\ tickers r.1 = tickers h) /\
     ((interval < 0)%Z -> r.2 = Some ValueError /\
        exists t, tickers r.1 !! interval = Some t /\ is_Some (subscriptions t !! k) /\
                  task_running t = false)) /\
  (forall interval, (0 < interval)%Z -> ekey_free (ticker_storage h) -> pool_intervals_ok (tickers h) ->
     let r := handler_add nct h interval CbOtherCallable idstring persistent a kw in
     r.2 = None /\
     exists kw', ticker_storage r.1 !! store_key None None interval VNone idstring persistent =
                 Some (EPayload a kw')).
Proof.
  split; [done|]. split.
  - intros interval cb obj path callfunc Hcb Hfree Hle Hp k r.
    assert (Hfree1 := ekey_free_insert_payload _ k a kw Hfree).
    split; [|split; [|split; [|split]]].
    + destruct (handler_add_at_key nct h interval cb idstring persistent a kw obj path callfunc Hcb)
        as (kw' & Hk & _). by exists kw'.
    + by apply (handler_add_stored nct h interval cb idstring persistent a kw obj path callfunc Hcb).
    + by apply (handler_add_log nct h interval cb idstring persistent a kw obj path callfunc Hcb).
    + intros H0. by apply (handler_add_zero nct h interval cb idstring persistent a kw obj path callfunc Hcb).
    + intros Hneg. by apply (handler_add_neg nct h interval cb idstring persistent a kw obj path callfunc Hcb).
  - intros interval Hpos Hfree Hwf r.
    assert (Hcb : get_callback CbOtherCallable = inl (None, None, VNone)) by reflexivity.
    split.
    + apply (handler_add_ok nct h interval CbOtherCallable idstring persistent a kw None None VNone Hcb Hpos Hwf).
      by apply ekey_free_insert_payload.
    + destruct (handler_add_at_key nct h interval CbOtherCallable idstring persistent a kw None None VNone Hcb)
        as (kw' & Hk & _). by exists kw'.
Qed.

(** A fresh handler: nothing registered, nothing persisted. *)
Definition demo_empty_state : HState := mkH ∅ None ∅ [].

Lemma add_invalid_interval_raises_witness :
  let k := store_key (Some 1%nat) None 0 (VStr "at_tick") "" true in
  let r := handler_add demo_next_call demo_empty_state 0 (CbMethod 1%nat "at_tick") "" true [] ∅ in
  (exists kw', ticker_storage r.1 !! k = Some (EPayload [] kw')) /\
  (exists tab, stored r.1 = Some tab /\ is_Some (tab !! k)) /\
  log r.1 = log demo_empty_state /\
  (0%Z = 0%Z -> r.2 = Some KeyError /\ tickers r.1 = tickers demo_empty_state) /\
  ((0 < 0)%Z -> r.2 = Some ValueError /\
     exists t, tickers r.1 !! 0%Z = Some t /\ is_Some (subscriptions t !! k) /\ task_running t = false).
Proof.
  destruct (add_invalid_interval_raises demo_next_call demo_empty_state "" true [] ∅) as [_ [HB _]].
  apply (HB 0%Z (CbMethod 1%nat "at_tick") (Some 1%nat) None (VStr "at_tick")).
  - reflexivity.
  - intros k e He. vm_compute in He. discriminate He.
  - lia.
  - intros t Ht. vm_compute in Ht. discriminate Ht.
Defined.


Lemma store_key_persistent_ne (obj : option Entity) (path : option string) (interval : Z)
    (callfunc : PyVal) (idstring : string) :
  store_key obj path interval callfunc idstring true ≠ store_key obj path interval callfunc idstring false.
Proof. unfold store_key. intros [=]. Qed.

(** [C10] [remove] cannot unsubscribe a non-persistent subscription: after
    [add(..., persistent=False)] of a callable (with no persistent twin in
    the table), [remove] with the same interval, callback and idstring looks
    up the [persistent=True] key, finds nothing and returns the state
    unchanged, so the non-persistent entry stays in the table and in the
    pool. *)
Theorem remove_misses_nonpersistent (nct : Ticker -> PyVal) (h : HState) (interval : Z)
    (cb : Callback) (idstring : string) (a : args) (kw : kwargs)
    (obj : option Entity) (path : option string) (callfunc : PyVal) :
  get_callback cb = inl (obj, path, callfunc) ->
  ticker_storage h !! store_key obj path interval callfunc idstring true = None ->
  let h1 := (handler_add nct h interval cb idstring false a kw).1 in
  handler_remove nct h1 interval cb idstring = (h1, None) /\
  is_Some (ticker_storage h1 !! store_key obj path interval callfunc idstring false).
Proof.
  intros Hcb Hnone h1.
  assert (Hmiss : ticker_storage h1 !! store_key obj path interval callfunc idstring true = None).
  { unfold h1. apply eq_None_not_Some.
    rewrite (handler_add_dom nct h interval cb idstring false a kw obj path callfunc Hcb).
    rewrite lookup_insert_ne by apply not_eq_sym, store_key_persistent_ne.
    by rewrite Hnone. }
  split.
  - unfold handler_remove. rewrite Hcb. cbv zeta. by rewrite Hmiss.
  - destruct (handler_add_at_key nct h interval cb idstring false a kw obj path callfunc Hcb)
      as (kw' & Hk & _). unfold h1. rewrite Hk. by eexists.
Qed.

Lemma remove_misses_nonpersistent_witness :
  let h1 := (handler_add demo_next_call demo_empty_state 15 (CbMethod 1%nat "at_tick") "" false [] ∅).1 in
  handler_remove demo_next_call h1 15 (CbMethod 1%nat "at_tick") "" = (h1, None) /\
  is_Some (ticker_storage h1 !! store_key (Some 1%nat) None 15 (VStr "at_tick") "" false).
Proof.
  apply (remove_misses_nonpersistent demo_next_call demo_empty_state 15 (CbMethod 1%nat "at_tick")
           "" [] ∅ (Some 1%nat) None (VStr "at_tick")).
  - reflexivity.
  - vm_compute. reflexivity.
Defined.


(** * Further properties of the ticker layers *)

(** ** TickerPool *)

(** [X3] [TickerPool.add] at a non-zero interval subscribes the key to the
    ticker of its interval (created when missing) with the args and the
    kwargs minus [_start_delay], and leaves that ticker's other
    subscriptions and the other intervals' tickers unchanged.  On a pool
    whose tickers were built for their intervals: at a positive interval the
    ticker runs and nothing is raised; at a negative interval, from a
    stopped ticker, [task.start] raises ValueError and the ticker, bound in
    the pool, stays stopped. *)
Theorem pool_add_subscribes (p : Pool) (k : StoreKey) (a : args) (kw : kwargs) :
  sk_interval k ≠ 0%Z ->
  (exists t, fst (pool_add p k a kw) !! sk_interval k = Some t /\
     subscriptions t !! k = Some (a, delete "_start_delay" kw) /\
     (forall k', k' ≠ k -> subscriptions t !! k' =
        match p !! sk_interval k with Some t0 => subscriptions t0 !! k' | None => None end) /\
     (pool_intervals_ok p -> (0 < sk_interval k)%Z ->
        task_running t = true /\ snd (pool_add p k a kw) = None) /\
     (pool_intervals_ok p -> (sk_interval k < 0)%Z ->
        (forall t0, p !! sk_interval k = Some t0 -> task_running t0 = false) ->
        task_running t = false /\ snd (pool_add p k a kw) = Some ValueError)) /\
  (forall J, J ≠ sk_interval k -> fst (pool_add p k a kw) !! J = p !! J).
Proof.
  intros HI. rewrite pool_add_unfold by done. simpl.
  set (t0 := default (new_ticker (sk_interval k)) (p !! sk_interval k)).
  split; [|intros J HJ; by rewrite lookup_insert_ne].
  rewrite lookup_insert_eq. eexists. split; [reflexivity|].
  rewrite ticker_add_subscriptions, lookup_insert_eq. split; [done|].
  split. { intros k' Hk'. rewrite lookup_insert_ne by congruence. unfold t0. by destruct (p !! sk_interval k). }
  rewrite ticker_add_eq.
  set (t1 := set_subscriptions t0 (<[k := (a, delete "_start_delay" kw)]> (subscriptions t0))).
  assert (Hne : subscriptions t1 ≠ ∅) by apply insert_non_empty.
  split.
  - intros Hwf Hpos.
    assert (Hi : t_interval t1 = sk_interval k) by (apply default_ticker_interval, Hwf).
    destruct (validate_start_ok t1 (kw_get "_start_delay" VNone kw)) as [H1 H2]; [lia|done|].
    by split.
  - intros Hwf Hneg Hstop.
    assert (Hi : t_interval t1 = sk_interval k) by (apply default_ticker_interval, Hwf).
    assert (Hr : task_running t1 = false).
    { unfold t1, t0. simpl. destruct (p !! sk_interval k) eqn:Ht; simpl; [by apply Hstop|done]. }
    rewrite validate_neg by (done || lia). simpl. by split.
Qed.

(** [X4] [TickerPool.remove] never deletes a ticker: the pool keeps the same
    intervals; the ticker of the key's interval loses the key and nothing
    else changes.  A ticker with a non-negative interval raises nothing and
    runs exactly when subscriptions remain; a stopped ticker with a negative
    interval stays stopped, and raises ValueError when subscriptions
    remain. *)
Theorem pool_remove_keeps_intervals (p : Pool) (k : StoreKey) :
  dom (pool_remove p k).1 = dom p /\
  (p !! sk_interval k = None -> pool_remove p k = (p, None)) /\
  (forall t0, p !! sk_interval k = Some t0 ->
     exists t, (pool_remove p k).1 !! sk_interval k = Some t /\
       subscriptions t = delete k (subscriptions t0) /\
       ((0 <= t_interval t0)%Z ->
          (pool_remove p k).2 = None /\ task_running t = bool_decide (subscriptions t ≠ ∅)) /\
       ((t_interval t0 < 0)%Z -> task_running t0 = false ->
          task_running t = false /\
          (pool_remove p k).2 = if decide (subscriptions t = ∅) then None else Some ValueError)) /\
  (forall J, J ≠ sk_interval k -> (pool_remove p k).1 !! J = p !! J).
Proof.
  rewrite pool_remove_eq. destruct (p !! sk_interval k) as [t0|] eqn:Ht0.
  - simpl. split; [|split; [done|split]].
    + apply dom_insert_lookup_L. by eexists.
    + intros t0' [= <-]. eexists. split; [apply lookup_insert_eq|].
      rewrite ticker_remove_subscriptions. split; [done|].
      unfold ticker_remove.
      set (t1 := set_subscriptions t0 (delete k (subscriptions t0))).
      assert (Hs1 : subscriptions t1 = delete k (subscriptions t0)) by done.
      split.
      * intros Hi. destruct (decide (delete k (subscriptions t0) = ∅)) as [He|He].
        -- destruct (validate_empty t1 VNone) as [H1 H2]; [done|].
           rewrite H1, H2. split; [done|]. symmetry. apply bool_decide_eq_false_2. by intros Hn.
        -- destruct (validate_start_ok t1 VNone) as [H1 H2]; [done|done|].
           rewrite H1, H2. split; [done|]. symmetry. by apply bool_decide_eq_true_2.
      * intros Hi Hr. destruct (decide (delete k (subscriptions t0) = ∅)) as [He|He].
        -- destruct (validate_empty t1 VNone) as [H1 H2]; [done|]. by rewrite H1, H2.
        -- rewrite validate_neg by done. simpl. by split.
    + intros J HJ. by rewrite lookup_insert_ne.
  - split; [done|]. split; [done|]. split; [|done]. intros t0' [=].
Qed.

(** [X5] [TickerPool.add] followed by [TickerPool.remove] of a key that was
    not subscribed (at a non-zero interval) gives the interval's ticker back
    its former subscriptions (none if the ticker was created by the add: the
    empty ticker stays in the pool), and leaves the other intervals alone. *)
Theorem pool_add_remove_roundtrip (p : Pool) (k : StoreKey) (a : args) (kw : kwargs) :
  sk_interval k ≠ 0%Z ->
  (forall t0, p !! sk_interval k = Some t0 -> subscriptions t0 !! k = None) ->
  (exists t, (pool_remove (fst (pool_add p k a kw)) k).1 !! sk_interval k = Some t /\
     subscriptions t = match p !! sk_interval k with Some t0 => subscriptions t0 | None => ∅ end) /\
  (forall J, J ≠ sk_interval k -> (pool_remove (fst (pool_add p k a kw)) k).1 !! J = p !! J).
Proof.
  intros HI Hnot. rewrite pool_remove_eq, pool_add_nonzero, lookup_insert_eq by done. simpl.
  split.
  - eexists. split; [apply lookup_insert_eq|].
    rewrite ticker_remove_subscriptions, ticker_add_subscriptions.
    destruct (p !! sk_interval k) as [t0|] eqn:Ht0; simpl; apply delete_insert_id.
    + by apply Hnot.
    + apply lookup_empty.
  - intros J HJ. by rewrite !lookup_insert_ne.
Qed.

(** [X6] [TickerPool.stop()] stops every ticker (no subscriptions, task not
    running) and keeps them all in the pool; [stop(interval)] does the same
    when no ticker has that interval (or it is 0), and otherwise stops that
    ticker only. *)
Theorem pool_stop_scope (p : Pool) (i : Z) :
  dom (pool_stop p None) = dom p /\
  (forall I t, p !! I = Some t -> exists t', pool_stop p None !! I = Some t' /\
     subscriptions t' = ∅ /\ task_running t' = false) /\
  ((i = 0%Z \/ p !! i = None) -> pool_stop p (Some i) = pool_stop p None) /\
  (forall t, i ≠ 0%Z -> p !! i = Some t ->
     (exists t', pool_stop p (Some i) !! i = Some t' /\ subscriptions t' = ∅ /\ task_running t' = false) /\
     (forall J, J ≠ i -> pool_stop p (Some i) !! J = p !! J)).
Proof.
  assert (Hst : forall t, subscriptions (ticker_stop t).1 = ∅ /\ task_running (ticker_stop t).1 = false).
  { intros t. rewrite ticker_stop_subscriptions. split; [done|]. apply ticker_stop_ok. }
  split; [|split; [|split]].
  - apply dom_fmap_L.
  - intros I t Ht. simpl. rewrite lookup_fmap, Ht. eexists. split; [reflexivity|]. apply Hst.
  - intros [->|Hn]; [reflexivity|]. unfold pool_stop. rewrite Hn. by destruct (py_truthy (VInt i)).
  - intros t Hi Ht. unfold pool_stop. rewrite truthy_int.
    destruct (Z.eqb_spec i 0); [done|]. simpl. rewrite Ht. split.
    + rewrite lookup_insert_eq. eexists. split; [reflexivity|]. apply Hst.
    + intros J HJ. by rewrite lookup_insert_ne.
Qed.

(** ** TickerHandler *)

Lemma strip_delete_start_delay (kw : kwargs) :
  strip_reserved (delete "_start_delay" kw) = strip_reserved kw.
Proof.
  unfold strip_reserved. apply map_eq. intros x. rewrite !lookup_delete.
  repeat case_decide; done.
Qed.

Section HandlerAddMore.
Variables (nct : Ticker -> PyVal) (h : HState) (interval : Z) (cb : Callback)
  (idstring : string) (persistent : bool) (a : args) (kw : kwargs)
  (obj : option Entity) (path : option string) (callfunc : PyVal).
Hypothesis Hcb : get_callback cb = inl (obj, path, callfunc).

Let k := store_key obj path interval callfunc idstring persistent.
Let T1 := <[k := EPayload a kw]> (ticker_storage h).
Let r := handler_add nct h interval cb idstring persistent a kw.

(** [add] succeeds at a positive interval on a table without bare keys and
    a pool built for its intervals. *)
Lemma handler_add_ok_free :
  (0 < interval)%Z -> pool_intervals_ok (tickers h) -> ekey_free (ticker_storage h) -> r.2 = None.
Proof.
  intros Hpos Hwf Hfree. apply (handler_add_ok nct h interval cb idstring persistent a kw obj path callfunc Hcb Hpos Hwf).
  by apply ekey_free_insert_payload.
Qed.


(** [add] keeps the pool built for its intervals. *)
Lemma handler_add_intervals_ok : pool_intervals_ok (tickers h) -> pool_intervals_ok (tickers r.1).
Proof.
  intros Hwf. destruct (handler_add_tickers nct h interval cb idstring persistent a kw obj path callfunc Hcb)
    as [Hy Hn]. fold r in Hy, Hn.
  destruct (decide (ekey_free (<[store_key obj path interval callfunc idstring persistent := EPayload a kw]>
                                 (ticker_storage h)))) as [Hf|Hf].
  - destruct (Hy Hf) as (kw3 & -> & _). by apply pool_add_intervals_ok.
  - by rewrite (proj1 (Hn Hf)).
Qed.

(** The kwargs the pool receives: the stored dict with [_obj] and
    [_callback] set. *)
Lemma handler_add_pool_kwargs :
  r.2 = None ->
  exists kw2, strip_reserved kw2 = strip_reserved kw /\
    tickers r.1 = fst (pool_add (tickers h) k a
                         (<["_callback" := callfunc]> (<["_obj" := obj_val obj]> kw2))).
Proof.
  unfold r. rewrite (handler_add_eq nct h interval cb idstring persistent a kw obj path callfunc Hcb).
  fold k T1.
  destruct (save_storage_equiv nct (set_storage h T1) k (EPayload a kw)) as (e' & He' & Heq).
  { unfold T1. simpl. by rewrite lookup_insert_eq. }
  pose proof (save_tickers nct (set_storage h T1)) as Ht. simpl in Ht.
  destruct (save nct (set_storage h T1)) as [h2 [e|]]; simpl in *; [intros Habs; discriminate Habs|].
  rewrite He'. destruct e' as [a' kw'|]; [|done]. destruct Heq as [<- Hs].
  destruct (pool_add _ _ _ _) as [p l] eqn:Hp. simpl. intros _.
  exists kw'. split; [done|]. rewrite <- Ht. by rewrite Hp.
Qed.
End HandlerAddMore.

(** [remove] keeps the pool built for its intervals. *)
Lemma handler_remove_intervals_ok (nct : Ticker -> PyVal) (h : HState) (interval : Z) (cb : Callback)
    (idstring : string) :
  pool_intervals_ok (tickers h) -> pool_intervals_ok (tickers (handler_remove nct h interval cb idstring).1).
Proof.
  intros Hwf. unfold handler_remove. destruct (get_callback cb) as [[[obj path] callfunc]|e]; [|done].
  cbv zeta. destruct (ticker_storage h !! _) as [v|]; [|done].
  destruct (entry_truthy v); [|done].
  pose proof (pool_remove_intervals_ok (tickers h) (store_key obj path interval callfunc idstring true) Hwf)
    as Hp.
  destruct (pool_remove _ _) as [p [e|]]; simpl in *; [done|]. by rewrite save_tickers.
Qed.

(** [clear] keeps the pool built for its intervals. *)
Lemma handler_clear_intervals_ok (nct : Ticker -> PyVal) (h : HState) (i : option Z) :
  pool_intervals_ok (tickers h) -> pool_intervals_ok (tickers (handler_clear nct h i).1).
Proof.
  intros Hwf. unfold handler_clear. rewrite save_tickers. simpl. by apply pool_stop_intervals_ok.
Qed.

(** [X7] After [add] at a positive interval (on a table without bare keys
    and a pool whose tickers were built for their intervals), which then
    raises nothing, [all(interval)] lists the subscription under its store
    key, with the call's args, [_callback] set to the method name or
    function, [_obj] to the object, and the call's other kwargs. *)
Theorem add_then_all (nct : Ticker -> PyVal) (h : HState) (interval : Z) (cb : Callback)
    (idstring : string) (persistent : bool) (a : args) (kw : kwargs)
    (obj : option Entity) (path : option string) (callfunc : PyVal) :
  get_callback cb = inl (obj, path, callfunc) -> (0 < interval)%Z ->
  pool_intervals_ok (tickers h) -> ekey_free (ticker_storage h) ->
  let k := store_key obj path interval callfunc idstring persistent in
  let r := handler_add nct h interval cb idstring persistent a kw in
  r.2 = None /\
  exists subs kw', handler_all r.1 (Some interval) = Some {[interval := subs]} /\
    subs !! k = Some (a, kw') /\
    kw' !! "_callback" = Some callfunc /\ kw' !! "_obj" = Some (obj_val obj) /\
    strip_reserved kw' = strip_reserved kw.
Proof.
  intros Hcb HI Hwf Hfree k r.
  assert (Hok : r.2 = None)
    by exact (handler_add_ok_free nct h interval cb idstring persistent a kw obj path callfunc Hcb HI Hwf Hfree).
  split; [done|].
  destruct (handler_add_pool_kwargs nct h interval cb idstring persistent a kw obj path callfunc Hcb Hok)
    as (kw2 & Hs & Ht). fold k r in Ht.
  assert (Hk : sk_interval k = interval) by reflexivity.
  unfold handler_all. rewrite Ht, pool_add_nonzero by lia. rewrite Hk, lookup_insert_eq.
  unfold ticker_truthy. do 2 eexists. split; [reflexivity|].
  rewrite ticker_add_subscriptions, lookup_insert_eq. split; [reflexivity|].
  rewrite !lookup_delete_ne by done. rewrite lookup_insert_eq, lookup_insert_ne, lookup_insert_eq by done.
  split; [done|]. split; [done|].
  by rewrite strip_delete_start_delay, strip_insert_callback, strip_insert_obj.
Qed.


(** [X9] [clear()] (no interval, or interval 0) empties the table, deletes
    the persisted record, raises nothing, and stops every ticker of the pool
    (no subscriptions, task not running) while keeping them in the pool. *)
Theorem clear_all_empties (nct : Ticker -> PyVal) (h : HState) :
  handler_clear nct h (Some 0%Z) = handler_clear nct h None /\
  let r := handler_clear nct h None in
  r.2 = None /\ ticker_storage r.1 = ∅ /\ stored r.1 = None /\
  dom (tickers r.1) = dom (tickers h) /\
  (forall I t, tickers r.1 !! I = Some t -> subscriptions t = ∅ /\ task_running t = false).
Proof.
  split; [reflexivity|]. intros r.
  assert (Hr : r = (mkH ∅ None ((fun t => (ticker_stop t).1) <$> tickers h) (log h), None)).
  { unfold r, handler_clear, save. simpl. by rewrite decide_True. }
  rewrite Hr. simpl. split; [done|]. split; [done|]. split; [done|].
  split; [apply dom_fmap_L|].
  intros I t. rewrite lookup_fmap. destruct (tickers h !! I); simpl; [|done].
  intros [= <-]. rewrite ticker_stop_subscriptions. split; [done|]. apply ticker_stop_ok.
Qed.

(** [TickerHandler.all_display()]: the store keys of every ticker's
    subscriptions, ticker after ticker. *)
Definition all_display (h : HState) : list StoreKey :=
  concat ((fun t => (map_to_list (subscriptions t)).*1) <$> (map_to_list (tickers h)).*2).

(** [X10] [all_display()] lists a store key exactly when some ticker of the
    pool has it subscribed, and lists as many keys as [all()] has
    subscriptions. *)
Theorem all_display_lists_subscriptions (h : HState) (k : StoreKey) :
  (In k (all_display h) <->
     exists I t, tickers h !! I = Some t /\ is_Some (subscriptions t !! k)) /\
  length (all_display h) = all_count h.
Proof.
  split.
  - unfold all_display. rewrite in_concat. split.
    + intros (x & Hx & Hk). apply list_elem_of_In, list_elem_of_fmap in Hx as (t & -> & Ht).
      apply list_elem_of_fmap in Ht as ([I t'] & Heq & HIt). simpl in Heq. subst t'.
      apply elem_of_map_to_list in HIt.
      apply list_elem_of_In, list_elem_of_fmap in Hk as ([k' p] & Heq & Hkp). simpl in Heq. subst k'.
      apply elem_of_map_to_list in Hkp. exists I, t. split; [done|]. by eexists.
    + intros (I & t & Ht & [p Hp]). exists ((map_to_list (subscriptions t)).*1). split.
      * apply list_elem_of_In, list_elem_of_fmap. exists t. split; [done|].
        apply list_elem_of_fmap. exists (I, t). split; [done|]. by apply elem_of_map_to_list.
      * apply list_elem_of_In, list_elem_of_fmap. exists (k, p). split; [done|].
        by apply elem_of_map_to_list.
  - unfold all_display, all_count, handler_all. rewrite map_fold_foldr, map_to_list_fmap.
    induction (map_to_list (tickers h)) as [|[I t] l IH]; simpl; [done|].
    rewrite length_app. f_equal; [by rewrite length_fmap, length_map_to_list|exact IH].
Qed.

(** [X11] When a subscriber's callable raises [ObjectDoesNotExist] during a
    firing, the firing does not propagate it: it logs ["Removing ticker."]
    and, after the loop, removes that subscription from the ticker. *)
Theorem fire_object_does_not_exist_removes (alive : Entity -> bool) (outcome : Outcome) (t : Ticker)
    (k : StoreKey) (p : Payload) :
  (forall k', outcome k' ≠ Some BaseExc) ->
  subscriptions t !! k = Some p -> will_invoke alive p = true ->
  outcome k = Some ObjectDoesNotExist ->
  let r := ticker_callback alive outcome t in
  fr_exc r = None /\ subscriptions (fr_ticker r) !! k = None /\
  In (LogTrace "Removing ticker.") (fr_log r).
Proof.
  intros Hb Hk Hw Ho r. unfold r. rewrite ticker_callback_spec by done. simpl.
  assert (Hin : In (k, p) (map_to_list (subscriptions t))).
  { apply list_elem_of_In. by apply elem_of_map_to_list. }
  assert (Htb : try_body alive (outcome k) (cb_of p) (obj_of p) = TInvoked (Some ObjectDoesNotExist)).
  { rewrite <- Ho. apply try_body_invoked. exact Hw. }
  split; [done|]. split.
  - rewrite fold_ticker_remove_subs. rewrite decide_True; [done|].
    apply (in_concat_single (fun kp => marks alive outcome kp.1 kp.2) fst).
    exists (k, p). split; [done|]. simpl. unfold marks. by rewrite Htb.
  - unfold logged. apply in_concat. exists (fire_log alive outcome k p). split.
    + apply in_map_iff. exists (k, p). by split.
    + unfold fire_log. rewrite Htb. simpl. by left.
Qed.


(** ** restore *)

(** The table [restore] builds from the items: the restorable entries. *)
Definition restore_kept (vfm : string -> string -> option PyVal) (sr : bool)
    (items : list (StoreKey * Entry)) (ns : gmap StoreKey Entry) : gmap StoreKey Entry :=
  fold_left (fun acc ke => match restore_entry vfm sr ke.1 ke.2 with
                           | ROk a kw => <[ke.1 := EPayload a kw]> acc
                           | _ => acc
                           end) items ns.

Definition is_kept (vfm : string -> string -> option PyVal) (sr : bool) (ke : StoreKey * Entry) : bool :=
  match restore_entry vfm sr ke.1 ke.2 with ROk _ _ => true | _ => false end.

Lemma restore_kept_none (vfm : string -> string -> option PyVal) (sr : bool)
    (items : list (StoreKey * Entry)) (ns : gmap StoreKey Entry) :
  existsb (is_kept vfm sr) items = false -> restore_kept vfm sr items ns = ns.
Proof.
  revert ns. induction items as [|[k e] rest IH]; intros ns; simpl; [done|].
  unfold is_kept at 1. simpl. destruct (restore_entry vfm sr k e); simpl; try discriminate; apply IH.
Qed.

(** The items [restore] hands over without an exception: no bare key, and
    a positive interval for every restorable entry. *)
Definition items_ok (vfm : string -> string -> option PyVal) (sr : bool)
    (items : list (StoreKey * Entry)) : Prop :=
  Forall (fun ke => match restore_entry vfm sr ke.1 ke.2 with
                    | RRaise _ => False
                    | ROk _ _ => (0 < sk_interval ke.1)%Z
                    | _ => True
                    end) items.

(** A persisted table without bare keys, all of whose intervals are
    positive, as a check. *)
Definition table_okb (tab : gmap StoreKey Entry) : bool :=
  forallb (fun ke => negb (is_ekey ke.2) && Z.ltb 0 (sk_interval ke.1)) (map_to_list tab).

Lemma table_okb_spec (tab : gmap StoreKey Entry) :
  table_okb tab = true -> forall k e, tab !! k = Some e -> is_ekey e = false /\ (0 < sk_interval k)%Z.
Proof.
  unfold table_okb. rewrite forallb_forall. intros H k e Hk.
  assert (Hin : In (k, e) (map_to_list tab)) by (apply list_elem_of_In; by apply elem_of_map_to_list).
  specialize (H _ Hin). simpl in H. apply andb_prop in H as [H1 H2].
  split; [by destruct (is_ekey e)|]. by apply Z.ltb_lt.
Qed.

Lemma restore_entry_no_raise (vfm : string -> string -> option PyVal) (sr : bool) (k : StoreKey)
    (a : args) (kw : kwargs) (ex : PyExc) :
  restore_entry vfm sr k (EPayload a kw) ≠ RRaise ex.
Proof. unfold restore_entry, restore_path. repeat case_match; discriminate. Qed.

Lemma table_items_ok (vfm : string -> string -> option PyVal) (sr : bool) (tab : gmap StoreKey Entry) :
  (forall k e, tab !! k = Some e -> is_ekey e = false /\ (0 < sk_interval k)%Z) ->
  items_ok vfm sr (map_to_list tab).
Proof.
  intros Htab. unfold items_ok. apply Forall_forall. intros [k e] Hin.
  assert (Hk : tab !! k = Some e).
  { apply elem_of_map_to_list. first [exact Hin | by apply list_elem_of_In]. }
  destruct (Htab k e Hk) as [He Hpos]. simpl.
  destruct e as [a kw|k0]; [|discriminate He].
  destruct (restore_entry vfm sr k (EPayload a kw)) eqn:Hr; try done.
  by apply restore_entry_no_raise in Hr.
Qed.

Lemma restore_loop_cons_skip (vfm : string -> string -> option PyVal) (sr : bool) (k : StoreKey)
    (e : Entry) (rest : list (StoreKey * Entry)) (ns : gmap StoreKey Entry) (h : HState) :
  restore_entry vfm sr k e = RSkip ->
  restore_loop vfm sr ((k, e) :: rest) ns h = restore_loop vfm sr rest ns h.
Proof. intros He. simpl. by rewrite He. Qed.

Lemma restore_loop_cons_fail (vfm : string -> string -> option PyVal) (sr : bool) (k : StoreKey)
    (e : Entry) (rest : list (StoreKey * Entry)) (ns : gmap StoreKey Entry) (h : HState) :
  restore_entry vfm sr k e = RFail ->
  restore_loop vfm sr ((k, e) :: rest) ns h =
    restore_loop vfm sr rest ns (add_log h [LogErr "Tickerhandler: Removing malformed ticker"]).
Proof. intros He. simpl. by rewrite He. Qed.

Lemma restore_loop_cons_ok (vfm : string -> string -> option PyVal) (sr : bool) (k : StoreKey)
    (e : Entry) (rest : list (StoreKey * Entry)) (ns : gmap StoreKey Entry) (h : HState)
    (a : args) (kw : kwargs) :
  restore_entry vfm sr k e = ROk a kw -> (0 < sk_interval k)%Z -> pool_intervals_ok (tickers h) ->
  restore_loop vfm sr ((k, e) :: rest) ns h =
    restore_loop vfm sr rest (<[k := EPayload a kw]> ns)
      (set_tickers (set_storage h (<[k := EPayload a kw]> ns)) (fst (pool_add (tickers h) k a kw))).
Proof.
  intros He Hk Hwf. simpl. rewrite He.
  pose proof (pool_add_pos_ok (tickers h) k a kw Hk (pool_intervals_ok_pos _ k Hwf Hk)) as Hok.
  destruct (pool_add (tickers h) k a kw) as [p r]. simpl in *. by subst r.
Qed.

Lemma restore_kept_cons_ok (vfm : string -> string -> option PyVal) (sr : bool) (k : StoreKey)
    (e : Entry) (rest : list (StoreKey * Entry)) (ns : gmap StoreKey Entry) (a : args) (kw : kwargs) :
  restore_entry vfm sr k e = ROk a kw ->
  restore_kept vfm sr ((k, e) :: rest) ns = restore_kept vfm sr rest (<[k := EPayload a kw]> ns).
Proof. intros He. unfold restore_kept. simpl. by rewrite He. Qed.

Lemma restore_loop_ok (vfm : string -> string -> option PyVal) (sr : bool)
    (items : list (StoreKey * Entry)) (ns : gmap StoreKey Entry) (h : HState) :
  items_ok vfm sr items -> pool_intervals_ok (tickers h) ->
  (restore_loop vfm sr items ns h).2 = None /\
  pool_intervals_ok (tickers (restore_loop vfm sr items ns h).1).
Proof.
  revert ns h. induction items as [|[k e] rest IH]; intros ns h Hok Hwf; [done|].
  inversion Hok as [|? ? Hke Hrest]; subst. simpl in Hke.
  destruct (restore_entry vfm sr k e) as [| |ex|a kw] eqn:He.
  - rewrite restore_loop_cons_skip by done. by apply IH.
  - rewrite restore_loop_cons_fail by done. apply IH; [done|]. by destruct h.
  - done.
  - rewrite (restore_loop_cons_ok vfm sr k e rest ns h a kw He Hke Hwf).
    apply IH; [done|]. simpl. by apply pool_add_intervals_ok.
Qed.

Lemma restore_loop_storage (vfm : string -> string -> option PyVal) (sr : bool)
    (items : list (StoreKey * Entry)) (ns : gmap StoreKey Entry) (h : HState) :
  items_ok vfm sr items -> pool_intervals_ok (tickers h) ->
  ticker_storage (restore_loop vfm sr items ns h).1 =
    if existsb (is_kept vfm sr) items then restore_kept vfm sr items ns else ticker_storage h.
Proof.
  revert ns h. induction items as [|[k e] rest IH]; intros ns h Hok Hwf; [done|].
  inversion Hok as [|? ? Hke Hrest]; subst. simpl in Hke.
  assert (Hkept : is_kept vfm sr (k, e) = match restore_entry vfm sr k e with ROk _ _ => true | _ => false end)
    by done.
  cbn [existsb]. rewrite Hkept.
  assert (Hcons : forall ex, restore_entry vfm sr k e ≠ RRaise ex ->
            (forall a kw, restore_entry vfm sr k e ≠ ROk a kw) ->
            restore_kept vfm sr ((k, e) :: rest) ns = restore_kept vfm sr rest ns).
  { intros ex _ Hn. unfold restore_kept. simpl.
    destruct (restore_entry vfm sr k e); try done. by destruct (Hn a kw). }
  destruct (restore_entry vfm sr k e) as [| |ex|a kw] eqn:He; cbn [orb].
  - rewrite restore_loop_cons_skip by done. rewrite IH by done.
    by rewrite (Hcons ValueError) by (intros; discriminate).
  - rewrite restore_loop_cons_fail by done. rewrite IH; [|done|by destruct h].
    by rewrite (Hcons ValueError) by (intros; discriminate).
  - done.
  - rewrite (restore_loop_cons_ok vfm sr k e rest ns h a kw He Hke Hwf).
    rewrite IH; [|done|by apply pool_add_intervals_ok].
    rewrite (restore_kept_cons_ok vfm sr k e rest ns a kw He).
    destruct (existsb (is_kept vfm sr) rest) eqn:Hr; [done|]. simpl. by rewrite restore_kept_none.
Qed.

Lemma restore_loop_pool_old (vfm : string -> string -> option PyVal) (sr : bool)
    (items : list (StoreKey * Entry)) (ns : gmap StoreKey Entry) (h : HState) (I : Z) (k : StoreKey) :
  pool_has (tickers h) I k -> pool_has (tickers (restore_loop vfm sr items ns h).1) I k.
Proof.
  revert ns h. induction items as [|[k0 e] rest IH]; intros ns h Hh; simpl; [done|].
  destruct (restore_entry vfm sr k0 e) as [| |ex|a kw]; simpl.
  - by apply IH.
  - by apply IH.
  - done.
  - destruct (pool_add (tickers h) k0 a kw) as [p [ex|]] eqn:Hp; simpl.
    + replace p with (fst (pool_add (tickers h) k0 a kw)) by (by rewrite Hp).
      by apply pool_add_has_old.
    + apply IH. simpl.
      replace p with (fst (pool_add (tickers h) k0 a kw)) by (by rewrite Hp).
      by apply pool_add_has_old.
Qed.

Lemma restore_loop_pool_new (vfm : string -> string -> option PyVal) (sr : bool)
    (items : list (StoreKey * Entry)) (ns : gmap StoreKey Entry) (h : HState) (k : StoreKey) (e : Entry)
    (a : args) (kw : kwargs) :
  In (k, e) items -> restore_entry vfm sr k e = ROk a kw ->
  items_ok vfm sr items -> pool_intervals_ok (tickers h) ->
  pool_has (tickers (restore_loop vfm sr items ns h).1) (sk_interval k) k.
Proof.
  revert ns h. induction items as [|[k0 e0] rest IH]; intros ns h Hin He Hok Hwf; [done|].
  inversion Hok as [|? ? Hke Hrest]; subst. simpl in Hke.
  destruct Hin as [[= -> ->]|Hin].
  - rewrite He in Hke. rewrite (restore_loop_cons_ok vfm sr k e rest ns h a kw He Hke Hwf).
    apply restore_loop_pool_old. simpl. apply pool_add_has_new. lia.
  - destruct (restore_entry vfm sr k0 e0) as [| |ex|a0 kw0] eqn:He0.
    + rewrite restore_loop_cons_skip by done. by apply IH.
    + rewrite restore_loop_cons_fail by done. apply IH; try done; by destruct h.
    + done.
    + rewrite (restore_loop_cons_ok vfm sr k0 e0 rest ns h a0 kw0 He0 Hke Hwf).
      apply IH; try done. simpl. by apply pool_add_intervals_ok.
Qed.

Lemma restore_kept_other (vfm : string -> string -> option PyVal) (sr : bool)
    (items : list (StoreKey * Entry)) (ns : gmap StoreKey Entry) (k : StoreKey) :
  k ∉ items.*1 -> restore_kept vfm sr items ns !! k = ns !! k.
Proof.
  revert ns. induction items as [|[k0 e0] rest IH]; intros ns Hn; simpl; [done|].
  rewrite fmap_cons, elem_of_cons in Hn. simpl in Hn.
  rewrite IH by naive_solver. destruct (restore_entry vfm sr k0 e0); try done.
  rewrite lookup_insert_ne; naive_solver.
Qed.

Lemma restore_kept_in (vfm : string -> string -> option PyVal) (sr : bool)
    (items : list (StoreKey * Entry)) (ns : gmap StoreKey Entry) (k : StoreKey) (e : Entry)
    (a : args) (kw : kwargs) :
  NoDup items.*1 -> In (k, e) items -> restore_entry vfm sr k e = ROk a kw ->
  restore_kept vfm sr items ns !! k = Some (EPayload a kw).
Proof.
  revert ns. induction items as [|[k0 e0] rest IH]; intros ns Hnd Hin He; simpl in *; [done|].
  apply NoDup_cons in Hnd as [Hk0 Hnd].
  destruct Hin as [[= -> ->]|Hin]; [|by apply IH].
  rewrite restore_kept_other by done. rewrite He. apply lookup_insert_eq.
Qed.

Lemma restore_kept_inv (vfm : string -> string -> option PyVal) (sr : bool)
    (items : list (StoreKey * Entry)) (ns : gmap StoreKey Entry) (k : StoreKey) (x : Entry) :
  restore_kept vfm sr items ns !! k = Some x ->
  (exists e a kw, In (k, e) items /\ restore_entry vfm sr k e = ROk a kw /\ x = EPayload a kw) \/
  ns !! k = Some x.
Proof.
  revert ns. induction items as [|[k0 e0] rest IH]; intros ns Hk; simpl in *; [by right|].
  destruct (IH _ Hk) as [(e & a & kw & Hin & He & ->)|Hns].
  { left. exists e, a, kw. by auto. }
  destruct (restore_entry vfm sr k0 e0) as [| |ex|a kw] eqn:He; try by right.
  rewrite lookup_insert in Hns. case_decide as Hkk; [|by right].
  subst k0. injection Hns as <-. left. exists e0, a, kw. by auto.
Qed.

(** [X12] [restore] from a persisted table without bare keys whose entries
    all have a positive interval, with a pool whose tickers were built for
    their intervals, raises nothing and rebuilds the table: every restorable
    entry (kept by the durability filter, with a well-formed callback) is in
    the new table with its restored kwargs and is subscribed in the pool;
    the new table holds nothing else, unless no entry at all is restorable,
    in which case the table is left as it was. *)
Theorem restore_rebuilds (vfm : string -> string -> option PyVal) (h : HState) (sr : bool)
    (tab : gmap StoreKey Entry) :
  stored h = Some tab ->
  (forall k e, tab !! k = Some e -> is_ekey e = false /\ (0 < sk_interval k)%Z) ->
  pool_intervals_ok (tickers h) ->
  let r := restore vfm h sr in
  r.2 = None /\
  (forall k e a kw, tab !! k = Some e -> restore_entry vfm sr k e = ROk a kw ->
     ticker_storage r.1 !! k = Some (EPayload a kw) /\ pool_has (tickers r.1) (sk_interval k) k) /\
  (forall k x, ticker_storage r.1 !! k = Some x ->
     (exists e a kw, tab !! k = Some e /\ restore_entry vfm sr k e = ROk a kw /\ x = EPayload a kw) \/
     ((forall k' e', tab !! k' = Some e' -> is_kept vfm sr (k', e') = false) /\
      ticker_storage h !! k = Some x)).
Proof.
  intros Hst Htab Hwf r. unfold r, restore. rewrite Hst.
  pose proof (table_items_ok vfm sr tab Htab) as Hok.
  pose proof (NoDup_fst_map_to_list tab) as Hnd.
  split; [by apply restore_loop_ok|].
  rewrite restore_loop_storage by done. split.
  - intros k e a kw Hk He.
    assert (Hin : In (k, e) (map_to_list tab)) by (apply list_elem_of_In; by apply elem_of_map_to_list).
    split.
    + assert (Hex : existsb (is_kept vfm sr) (map_to_list tab) = true).
      { apply existsb_exists. exists (k, e). split; [done|]. unfold is_kept. simpl. by rewrite He. }
      rewrite Hex. by apply (restore_kept_in vfm sr _ ∅ k e a kw).
    + by apply (restore_loop_pool_new vfm sr _ ∅ h k e a kw).
  - intros k x. destruct (existsb (is_kept vfm sr) (map_to_list tab)) eqn:Hex.
    + intros Hk. left. apply restore_kept_inv in Hk as [(e & a & kw & Hin & He & ->)|Hns].
      * exists e, a, kw. split; [|done]. apply elem_of_map_to_list. by apply list_elem_of_In.
      * by rewrite lookup_empty in Hns.
    + intros Hk. right. split; [|done]. intros k' e' Hk'.
      destruct (is_kept vfm sr (k', e')) eqn:Hkept; [|done].
      assert (existsb (is_kept vfm sr) (map_to_list tab) = true) as Habs; [|congruence].
      apply existsb_exists. exists (k', e'). split; [|done].
      apply list_elem_of_In. by apply elem_of_map_to_list.
Qed.

Definition demo_restore_tab : gmap StoreKey Entry :=
  <[demo_key := EPayload [] ∅]> {[demo_key_nd := EPayload [VInt 3] ∅]}.

Lemma restore_rebuilds_witness :
  stored demo_restore_state = Some demo_restore_tab /\
  let r := restore demo_vfm demo_restore_state false in
  r.2 = None /\
  (forall k e a kw, demo_restore_tab !! k = Some e -> restore_entry demo_vfm false k e = ROk a kw ->
     ticker_storage r.1 !! k = Some (EPayload a kw) /\ pool_has (tickers r.1) (sk_interval k) k) /\
  (forall k x, ticker_storage r.1 !! k = Some x ->
     (exists e a kw, demo_restore_tab !! k = Some e /\ restore_entry demo_vfm false k e = ROk a kw /\ x = EPayload a kw) \/
     ((forall k' e', demo_restore_tab !! k' = Some e' -> is_kept demo_vfm false (k', e') = false) /\
      ticker_storage demo_restore_state !! k = Some x)).
Proof.
  split; [reflexivity|].
  apply (restore_rebuilds demo_vfm demo_restore_state false demo_restore_tab).
  - reflexivity.
  - apply table_okb_spec. vm_compute. reflexivity.
  - apply pool_intervals_okb_spec. vm_compute. reflexivity.
Defined.

Lemma list_ascii_of_string_app (s1 s2 : string) :
  String.list_ascii_of_string (s1 +:+ s2) = String.list_ascii_of_string s1 ++ String.list_ascii_of_string s2.
Proof. induction s1 as [|c s1 IH]; simpl; [done|]. by rewrite IH. Qed.

Lemma split_first_dot_app (l r : list Ascii.ascii) :
  "."%char ∉ l -> split_first_dot (l ++ "."%char :: r) = Some (l, r).
Proof.
  induction l as [|c l IH]; intros Hn; simpl; [done|].
  rewrite elem_of_cons in Hn.
  destruct (Ascii.eqb_spec c "."%char) as [->|Hc]; [naive_solver|].
  rewrite IH; naive_solver.
Qed.

(** [path.rsplit(".", 1)] undoes ["%s.%s" % (module, name)] when the name
    has no dot. *)
Lemma rsplit_dot_join (m n : string) :
  "."%char ∉ String.list_ascii_of_string n -> rsplit_dot (m +:+ "." +:+ n) = Some (m, n).
Proof.
  intros Hn. unfold rsplit_dot.
  rewrite !list_ascii_of_string_app. simpl.
  rewrite rev_app_distr. simpl. rewrite <- app_assoc. simpl.
  rewrite split_first_dot_app.
  - by rewrite !rev_involutive, !String.string_of_list_ascii_of_string.
  - intros Hin. apply Hn. apply list_elem_of_In. apply list_elem_of_In in Hin. by apply in_rev.
Qed.

(** [X13] A subscription of a stand-alone function [name] of module [module]
    (a name without a dot) is restored, when the durability filter keeps it,
    by importing exactly [name] from [module]: the restored kwargs carry the
    imported callable as [_callback] and [_obj = None]; when the import
    fails the entry is dropped as malformed. *)
Theorem restore_function_subscription (vfm : string -> string -> option PyVal) (sr : bool)
    (module name : string) (interval : Z) (idstring : string) (persistent : bool)
    (obj : option Entity) (path : option string) (callfunc : PyVal) (a : args) (kw : kwargs) :
  get_callback (CbFunction module name) = inl (obj, path, callfunc) ->
  "."%char ∉ String.list_ascii_of_string name -> (persistent = true \/ sr = true) ->
  restore_entry vfm sr (store_key obj path interval callfunc idstring persistent) (EPayload a kw) =
    match vfm module name with
    | Some cbv => ROk a (<["_obj" := VNone]> (<["_callback" := cbv]> kw))
    | None => RFail
    end.
Proof.
  intros Hcb Hn Hp. simpl in Hcb. injection Hcb as <- <- <-.
  assert (Hne : String.eqb (module +:+ "." +:+ name) "" = false).
  { by destruct module. }
  unfold restore_entry, store_key. rewrite Hne. simpl.
  replace (negb persistent && negb sr) with false by (destruct Hp as [->| ->]; [done | by rewrite andb_false_r]).
  unfold restore_path. simpl. rewrite Hne. simpl. by rewrite rsplit_dot_join.
Qed.


(** [inputfuncs._repeatable]: both names map to [_testrepeat], a
    module-level function of [evennia.server.inputfuncs]. *)
Definition repeatable (name : string) : option Callback :=
  if String.eqb name "test1" then Some (CbFunction "evennia.server.inputfuncs" "_testrepeat")
  else if String.eqb name "test2" then Some (CbFunction "evennia.server.inputfuncs" "_testrepeat")
  else None.

(** [inputfuncs.repeat(session, callback=..., interval=..., stop=...)]; an
    absent keyword is [None]. [session.sessid] is passed as the [idstring],
    which the handler only compares for equality. The [stop] branch calls
    [TICKER_HANDLER.remove(..., persistent=False)], but [remove] has no
    [persistent] parameter: the call raises [TypeError] before its body runs.
    [False] and [True] are the integers 0 and 1. *)
Definition repeat (next_call_time : Ticker -> PyVal) (h : HState) (sessid : string)
    (callback : option string) (interval : option Z) (stop : option PyVal)
  : HState * option PyExc :=
  let name := default "" callback in
  let interval := Z.max 5 (default 60%Z interval) in
  match repeatable name with
  | Some cb =>
      if py_truthy (default (VInt 0) stop)
      then (h, Some TypeError)
      else handler_add next_call_time h interval cb sessid false [] ∅
  | None => (h, None)
  end.


(** The key [repeat] files a repeatable name under. *)
Definition repeat_key (sessid : string) (interval : option Z) : StoreKey :=
  (None, None, Some "evennia.server.inputfuncs._testrepeat", Z.max 5 (default 60%Z interval), sessid, false).

Lemma repeatable_cb (name : string) (cb : Callback) :
  repeatable name = Some cb -> cb = CbFunction "evennia.server.inputfuncs" "_testrepeat".
Proof. unfold repeatable. repeat case_match; congruence. Qed.

(** [repeat] with a name of [_repeatable] and no truthy [stop] is
    [add(interval, _testrepeat, idstring=sessid, persistent=False)], which
    succeeds on a table without bare keys and a pool built for its
    intervals, filing and subscribing [repeat_key]. *)
Lemma repeat_ok (nct : Ticker -> PyVal) (h : HState) (sessid : string)
    (name : string) (interval : option Z) (stop : option PyVal) :
  is_Some (repeatable name) -> py_truthy (default (VInt 0) stop) = false ->
  ekey_free (ticker_storage h) -> pool_intervals_ok (tickers h) ->
  let r := repeat nct h sessid (Some name) interval stop in
  let k := repeat_key sessid interval in
  r.2 = None /\
  (exists kw', ticker_storage r.1 !! k = Some (EPayload [] kw') /\ strip_reserved kw' = strip_reserved ∅) /\
  pool_has (tickers r.1) (sk_interval k) k.
Proof.
  intros [cb Hcb] Hstop Hfree Hwf r k.
  pose proof (repeatable_cb name cb Hcb) as ->.
  set (I := Z.max 5 (default 60%Z interval)).
  assert (HI : (0 < I)%Z) by (unfold I; lia).
  assert (Hr : r = handler_add nct h I (CbFunction "evennia.server.inputfuncs" "_testrepeat") sessid false [] ∅).
  { unfold r, repeat. simpl. by rewrite Hcb, Hstop. }
  assert (Hg : get_callback (CbFunction "evennia.server.inputfuncs" "_testrepeat") =
               inl (None, Some "evennia.server.inputfuncs._testrepeat", VFun "evennia.server.inputfuncs._testrepeat"))
    by reflexivity.
  assert (Hk : k = store_key None (Some "evennia.server.inputfuncs._testrepeat") I
                     (VFun "evennia.server.inputfuncs._testrepeat") sessid false) by reflexivity.
  assert (Hok : r.2 = None).
  { rewrite Hr. by apply (handler_add_ok_free nct h I _ sessid false [] ∅ _ _ _ Hg). }
  split; [done|]. split.
  - rewrite Hr, Hk. apply (handler_add_at_key nct h I _ sessid false [] ∅ _ _ _ Hg).
  - destruct (handler_add_tickers nct h I _ sessid false [] ∅ _ _ _ Hg) as [Hy _].
    destruct Hy as (kw3 & Ht & _).
    { by apply ekey_free_insert_payload. }
    rewrite Hr, Ht, Hk. apply pool_add_has_new. simpl. lia.
Qed.

(** [X14] [repeat] with a name of [_repeatable] and no truthy [stop], on a
    table without bare keys and a pool whose tickers were built for their
    intervals, succeeds: it files a non-persistent key for [_testrepeat]
    under the session id, at an interval of at least 5 seconds (60 when
    none is given), with no extra kwargs, and the pool subscribes it at that
    interval. *)
Theorem repeat_subscribes (nct : Ticker -> PyVal) (h : HState) (sessid : string)
    (name : string) (interval : option Z) (stop : option PyVal) :
  is_Some (repeatable name) -> py_truthy (default (VInt 0) stop) = false ->
  ekey_free (ticker_storage h) -> pool_intervals_ok (tickers h) ->
  let r := repeat nct h sessid (Some name) interval stop in
  let k := repeat_key sessid interval in
  r.2 = None /\ (5 <= sk_interval k)%Z /\ sk_persistent k = false /\
  (exists kw', ticker_storage r.1 !! k = Some (EPayload [] kw') /\ strip_reserved kw' = strip_reserved ∅) /\
  pool_has (tickers r.1) (sk_interval k) k.
Proof.
  intros Hn Hstop Hfree Hwf r k.
  destruct (repeat_ok nct h sessid name interval stop Hn Hstop Hfree Hwf) as (Hok & Hst & Hp).
  split; [done|]. split; [unfold k, repeat_key; simpl; lia|]. split; [done|]. by split.
Qed.


(** ** The pool's invariant *)

Lemma restore_loop_intervals_ok (vfm : string -> string -> option PyVal) (sr : bool)
    (items : list (StoreKey * Entry)) (ns : gmap StoreKey Entry) (h : HState) :
  pool_intervals_ok (tickers h) -> pool_intervals_ok (tickers (restore_loop vfm sr items ns h).1).
Proof.
  revert ns h. induction items as [|[k e] rest IH]; intros ns h Hwf; simpl; [done|].
  destruct (restore_entry vfm sr k e) as [| |ex|a kw]; simpl.
  - by apply IH.
  - apply IH. by destruct h.
  - done.
  - pose proof (pool_add_intervals_ok (tickers h) k a kw Hwf) as Hp.
    destruct (pool_add (tickers h) k a kw) as [p [ex|]]; simpl in *; [done|]. by apply IH.
Qed.

(** [X1] Every ticker of the pool keeps the interval it is bound under
    ([self.tickers[interval] = Ticker(interval)]): the empty pool of a new
    handler has this property, and [add], [remove], [clear] and [restore]
    keep it, whether or not they raise. *)
Theorem pool_intervals_invariant (nct : Ticker -> PyVal) (vfm : string -> string -> option PyVal)
    (h : HState) (interval : Z) (cb : Callback) (idstring : string) (persistent : bool)
    (a : args) (kw : kwargs) (i : option Z) (sr : bool) :
  pool_intervals_ok (∅ : Pool) /\
  (pool_intervals_ok (tickers h) ->
     pool_intervals_ok (tickers (handler_add nct h interval cb idstring persistent a kw).1) /\
     pool_intervals_ok (tickers (handler_remove nct h interval cb idstring).1) /\
     pool_intervals_ok (tickers (handler_clear nct h i).1) /\
     pool_intervals_ok (tickers (restore vfm h sr).1)).
Proof.
  split; [intros J t Ht; by rewrite lookup_empty in Ht|].
  intros Hwf. split; [|split; [|split]].
  - destruct (get_callback cb) as [[[obj path] callfunc]|e] eqn:Hcb.
    + by apply (handler_add_intervals_ok nct h interval cb idstring persistent a kw obj path callfunc Hcb).
    + unfold handler_add. by rewrite Hcb.
  - by apply handler_remove_intervals_ok.
  - by apply handler_clear_intervals_ok.
  - unfold restore. destruct (stored h); [|done]. by apply restore_loop_intervals_ok.
Qed.

(** [X2] On a persisted table whose entries have positive intervals (with a
    pool whose tickers were built for their intervals), the cold-restart
    filter works: from a persistent entry [kd] and a non-persistent entry
    [kn], both restorable, [restore(False)] raises nothing, rebuilds the
    table with [kd] alone and hands only [kd] to the pool, while
    [restore(True)] raises nothing, rebuilds it with both and subscribes
    both in the pool. *)
Theorem restore_cold_filter_positive (vfm : string -> string -> option PyVal) (h : HState)
    (kd kn : StoreKey) (ed en : Entry) (ad an : args) (kwd kwn : kwargs) :
  kd ≠ kn ->
  stored h = Some (<[kd := ed]> {[kn := en]}) ->
  sk_persistent kd = true -> sk_persistent kn = false ->
  restore_entry vfm true kd ed = ROk ad kwd ->
  restore_entry vfm true kn en = ROk an kwn ->
  (0 < sk_interval kd)%Z -> (0 < sk_interval kn)%Z -> pool_intervals_ok (tickers h) ->
  ((restore vfm h false).2 = None /\
   ticker_storage (restore vfm h false).1 = {[kd := EPayload ad kwd]} /\
   tickers (restore vfm h false).1 = fst (pool_add (tickers h) kd ad kwd)) /\
  ((restore vfm h true).2 = None /\
   ticker_storage (restore vfm h true).1 = <[kd := EPayload ad kwd]> {[kn := EPayload an kwn]} /\
   pool_has (tickers (restore vfm h true).1) (sk_interval kd) kd /\
   pool_has (tickers (restore vfm h true).1) (sk_interval kn) kn).
Proof.
  intros Hne Hst Hpd Hpn Hd Hn Hid Hin Hwf.
  pose proof (restore_entry_persistent vfm false kd ed Hpd) as Hd'. rewrite Hd in Hd'.
  pose proof (restore_entry_cold_skip vfm kn en an kwn Hn Hpn) as Hn'.
  pose proof (pool_add_intervals_ok (tickers h) kd ad kwd Hwf) as Hwfd.
  pose proof (pool_add_intervals_ok (tickers h) kn an kwn Hwf) as Hwfn.
  unfold restore. rewrite Hst.
  destruct (map_to_list_pair kd kn ed en Hne) as [Hl|Hl]; rewrite Hl.
  - rewrite (restore_loop_cons_ok vfm false kd ed _ ∅ h ad kwd Hd' Hid Hwf).
    rewrite (restore_loop_cons_skip vfm false kn en [] _ _ Hn').
    rewrite (restore_loop_cons_ok vfm true kd ed _ ∅ h ad kwd Hd Hid Hwf).
    rewrite (restore_loop_cons_ok vfm true kn en [] _ _ an kwn Hn Hin) by exact Hwfd.
    simpl. split; [done|]. split; [done|]. split; [by rewrite insert_insert_ne|]. split.
    + apply pool_add_has_old. apply pool_add_has_new. lia.
    + apply pool_add_has_new. lia.
  - rewrite (restore_loop_cons_skip vfm false kn en _ ∅ h Hn').
    rewrite (restore_loop_cons_ok vfm false kd ed [] ∅ h ad kwd Hd' Hid Hwf).
    rewrite (restore_loop_cons_ok vfm true kn en _ ∅ h an kwn Hn Hin Hwf).
    rewrite (restore_loop_cons_ok vfm true kd ed [] _ _ ad kwd Hd Hid) by exact Hwfn.
    simpl. split; [done|]. split; [done|]. split; [done|]. split.
    + apply pool_add_has_new. lia.
    + apply pool_add_has_old. apply pool_add_has_new. lia.
Qed.

(** A third subscriber at 15 and a callable [_testrepeat] for imports. *)
Definition demo_key3 : StoreKey := (Some 3%nat, Some "at_tick", None, 15%Z, "", true).
Definition demo_import (m n : string) : option PyVal :=
  if String.eqb m "evennia.server.inputfuncs" && String.eqb n "_testrepeat"
  then Some (VFun "evennia.server.inputfuncs._testrepeat") else None.
Definition demo_gone_outcome (k : StoreKey) : option PyExc :=
  if bool_decide (k = demo_key) then Some ObjectDoesNotExist else None.

Lemma pool_add_subscribes_witness :
  (exists t, fst (pool_add {[15%Z := demo_ticker]} demo_key3 [] ∅) !! sk_interval demo_key3 = Some t /\
     subscriptions t !! demo_key3 = Some ([], delete "_start_delay" ∅) /\
     (forall k', k' ≠ demo_key3 -> subscriptions t !! k' =
        match ({[15%Z := demo_ticker]} : Pool) !! sk_interval demo_key3 with
        | Some t0 => subscriptions t0 !! k' | None => None end) /\
     (pool_intervals_ok {[15%Z := demo_ticker]} -> (0 < sk_interval demo_key3)%Z ->
        task_running t = true /\ snd (pool_add {[15%Z := demo_ticker]} demo_key3 [] ∅) = None) /\
     (pool_intervals_ok {[15%Z := demo_ticker]} -> (sk_interval demo_key3 < 0)%Z ->
        (forall t0, ({[15%Z := demo_ticker]} : Pool) !! sk_interval demo_key3 = Some t0 ->
                    task_running t0 = false) ->
        task_running t = false /\ snd (pool_add {[15%Z := demo_ticker]} demo_key3 [] ∅) = Some ValueError)) /\
  (forall J, J ≠ sk_interval demo_key3 ->
     fst (pool_add {[15%Z := demo_ticker]} demo_key3 [] ∅) !! J = ({[15%Z := demo_ticker]} : Pool) !! J).
Proof.
  apply (pool_add_subscribes {[15%Z := demo_ticker]} demo_key3 [] ∅).
  vm_compute. lia.
Defined.

Lemma pool_add_remove_roundtrip_witness :
  (exists t, (pool_remove (fst (pool_add {[15%Z := demo_ticker]} demo_key3 [] ∅)) demo_key3).1
               !! sk_interval demo_key3 = Some t /\
     subscriptions t = match ({[15%Z := demo_ticker]} : Pool) !! sk_interval demo_key3 with
                       | Some t0 => subscriptions t0 | None => ∅ end) /\
  (forall J, J ≠ sk_interval demo_key3 ->
     (pool_remove (fst (pool_add {[15%Z := demo_ticker]} demo_key3 [] ∅)) demo_key3).1 !! J =
       ({[15%Z := demo_ticker]} : Pool) !! J).
Proof.
  apply (pool_add_remove_roundtrip {[15%Z := demo_ticker]} demo_key3 [] ∅).
  - vm_compute. lia.
  - intros t0 Ht0. rewrite lookup_singleton_eq in Ht0. injection Ht0 as <-. vm_compute. reflexivity.
Defined.

Lemma add_then_all_witness :
  let k := store_key (Some 1%nat) None 15%Z (VStr "at_tick") "" true in
  let r := handler_add demo_next_call demo_empty_state 15%Z (CbMethod 1%nat "at_tick") "" true [] ∅ in
  r.2 = None /\
  exists subs kw', handler_all r.1 (Some 15%Z) = Some {[15%Z := subs]} /\
    subs !! k = Some ([], kw') /\
    kw' !! "_callback" = Some (VStr "at_tick") /\ kw' !! "_obj" = Some (obj_val (Some 1%nat)) /\
    strip_reserved kw' = strip_reserved ∅.
Proof.
  apply (add_then_all demo_next_call demo_empty_state 15%Z (CbMethod 1%nat "at_tick") "" true [] ∅
           (Some 1%nat) None (VStr "at_tick")).
  - reflexivity.
  - lia.
  - apply pool_intervals_okb_spec. vm_compute. reflexivity.
  - intros k e He. vm_compute in He. discriminate He.
Defined.


Lemma fire_object_does_not_exist_removes_witness :
  let r := ticker_callback (fun _ => true) demo_gone_outcome demo_ticker in
  fr_exc r = None /\ subscriptions (fr_ticker r) !! demo_key = None /\
  In (LogTrace "Removing ticker.") (fr_log r).
Proof.
  apply (fire_object_does_not_exist_removes (fun _ => true) demo_gone_outcome demo_ticker demo_key
           (demo_payload 1%nat)).
  - intros k'. unfold demo_gone_outcome. case_bool_decide; discriminate.
  - vm_compute. reflexivity.
  - vm_compute. reflexivity.
  - unfold demo_gone_outcome. rewrite bool_decide_true; reflexivity.
Defined.

Lemma restore_function_subscription_witness :
  restore_entry demo_import false
    (store_key None (Some "evennia.server.inputfuncs._testrepeat") 60%Z
       (VFun "evennia.server.inputfuncs._testrepeat") "3" true) (EPayload [] ∅) =
    match demo_import "evennia.server.inputfuncs" "_testrepeat" with
    | Some cbv => ROk [] (<["_obj" := VNone]> (<["_callback" := cbv]> ∅))
    | None => RFail
    end.
Proof.
  apply (restore_function_subscription demo_import false "evennia.server.inputfuncs" "_testrepeat"
           60%Z "3" true None (Some "evennia.server.inputfuncs._testrepeat")
           (VFun "evennia.server.inputfuncs._testrepeat") [] ∅).
  - reflexivity.
  - apply (bool_decide_unpack _). vm_compute. exact I.
  - left. reflexivity.
Defined.

Lemma repeat_subscribes_witness :
  let r := repeat demo_next_call demo_empty_state "3" (Some "test1") (Some 2%Z) None in
  let k := repeat_key "3" (Some 2%Z) in
  r.2 = None /\ (5 <= sk_interval k)%Z /\ sk_persistent k = false /\
  (exists kw', ticker_storage r.1 !! k = Some (EPayload [] kw') /\ strip_reserved kw' = strip_reserved ∅) /\
  pool_has (tickers r.1) (sk_interval k) k.
Proof.
  apply (repeat_subscribes demo_next_call demo_empty_state "3" "test1" (Some 2%Z) None).
  - eexists. reflexivity.
  - reflexivity.
  - intros k e He. vm_compute in He. discriminate He.
  - apply pool_intervals_okb_spec. vm_compute. reflexivity.
Defined.


Lemma pool_intervals_invariant_witness :
  pool_intervals_ok (tickers demo_state) /\
  pool_intervals_ok (tickers (handler_add demo_next_call demo_state 0 (CbMethod 2%nat "at_tick") "" true [] ∅).1) /\
  pool_intervals_ok (tickers (handler_remove demo_next_call demo_state 0 (CbMethod 2%nat "at_tick") "").1) /\
  pool_intervals_ok (tickers (handler_clear demo_next_call demo_state (Some 15%Z)).1) /\
  pool_intervals_ok (tickers (restore demo_vfm demo_state true).1).
Proof.
  split; [apply pool_intervals_okb_spec; vm_compute; reflexivity|].
  apply (proj2 (pool_intervals_invariant demo_next_call demo_vfm demo_state 0 (CbMethod 2%nat "at_tick")
                  "" true [] ∅ (Some 15%Z) true)).
  apply pool_intervals_okb_spec. vm_compute. reflexivity.
Defined.

Lemma restore_cold_filter_positive_witness :
  ((restore demo_vfm demo_restore_state false).2 = None /\
   ticker_storage (restore demo_vfm demo_restore_state false).1 = {[demo_key := EPayload [] demo_restored_kw]} /\
   tickers (restore demo_vfm demo_restore_state false).1 =
     fst (pool_add (tickers demo_restore_state) demo_key [] demo_restored_kw)) /\
  ((restore demo_vfm demo_restore_state true).2 = None /\
   ticker_storage (restore demo_vfm demo_restore_state true).1 =
     <[demo_key := EPayload [] demo_restored_kw]> {[demo_key_nd := EPayload [VInt 3] demo_restored_kw]} /\
   pool_has (tickers (restore demo_vfm demo_restore_state true).1) (sk_interval demo_key) demo_key /\
   pool_has (tickers (restore demo_vfm demo_restore_state true).1) (sk_interval demo_key_nd) demo_key_nd).
Proof.
  apply (restore_cold_filter_positive demo_vfm demo_restore_state demo_key demo_key_nd
           (EPayload [] ∅) (EPayload [VInt 3] ∅) [] [VInt 3] demo_restored_kw demo_restored_kw).
  - discriminate.
  - reflexivity.
  - reflexivity.
  - reflexivity.
  - vm_compute. reflexivity.
  - vm_compute. reflexivity.
  - vm_compute. reflexivity.
  - vm_compute. reflexivity.
  - apply pool_intervals_okb_spec. vm_compute. reflexivity.
Defined.
